(** * Import resolution of the JS/TS gazelle extension (gazelle/resolve.go)

    A shallow embedding of [Resolve], [resolveWalkParents],
    [isNpmDependency], [hasPrefix] and [tryResolve], followed by the
    properties of the resolver that hold (or fail) on this code.

    Go strings are byte strings: they are modelled by [string], whose
    characters are the 256 byte values.  Go maps used as sets
    ([map[string]bool]) are [gset string]; [map[string]string] is
    [gmap string string]. *)

From Stdlib Require Import Ascii String.
From stdpp Require Import gmap strings list fin_maps sorting.

Local Open Scope stdpp_scope.

(** ** The parts of Go's [strings] package used by the resolver *)

Module GoStrings.

(** [stripPrefix s p] is the rest of [s] after its prefix [p], when [s]
    starts with [p]. *)
Fixpoint stripPrefix (s p : string) {struct p} : option string :=
  match p with
  | EmptyString => Some s
  | String a p' =>
      match s with
      | EmptyString => None
      | String b s' => if Ascii.eqb a b then stripPrefix s' p' else None
      end
  end.

(** strings.HasPrefix(s, prefix) *)
Definition HasPrefix (s p : string) : bool :=
  match stripPrefix s p with Some _ => true | None => false end.

(** strings.TrimPrefix(s, prefix) *)
Definition TrimPrefix (s p : string) : string :=
  match stripPrefix s p with Some r => r | None => s end.

(** strings.Split(s, sep) for a one-byte separator: the resolver only
    splits on the slash.  The result is never empty. *)
Fixpoint Split (s : string) (sep : ascii) : list string :=
  match s with
  | EmptyString => [EmptyString]
  | String ch s' =>
      if Ascii.eqb ch sep then EmptyString :: Split s' sep
      else match Split s' sep with
           | [] => [String ch EmptyString]
           | x :: xs => String ch x :: xs
           end
  end.

(** strings.Join(elems, sep) *)
Fixpoint Join (elems : list string) (sep : string) : string :=
  match elems with
  | [] => ""
  | [x] => x
  | x :: rest => x +:+ sep +:+ Join rest sep
  end.

(** strings.Contains(s, substr) *)
Fixpoint Contains (s sub : string) : bool :=
  HasPrefix s sub ||
  match s with
  | EmptyString => false
  | String _ s' => Contains s' sub
  end.

End GoStrings.

(** ** The parts of Go's [path] package used by the resolver

    [Clean] follows the four documented rules of path.Clean on the path's
    elements: empty and "." elements are dropped, an inner ".." removes
    the element before it, a ".." at the start of a rooted path is
    dropped, and the empty result is ".". *)

Module GoPath.
Import GoStrings.

Definition slash : ascii := "/"%char.

Definition cleanStep (rooted : bool) (stack : list string) (el : string)
  : list string :=
  if String.eqb el "" || String.eqb el "." then stack
  else if String.eqb el ".." then
    match stack with
    | top :: below => if String.eqb top ".." then el :: stack else below
    | [] => if rooted then [] else [el]
    end
  else el :: stack.

Definition Clean (p : string) : string :=
  if String.eqb p "" then "."
  else
    let rooted := HasPrefix p "/" in
    let out := Join (rev (fold_left (cleanStep rooted) (Split p slash) [])) "/" in
    if rooted then "/" +:+ out
    else if String.eqb out "" then "." else out.

Fixpoint dropEmpty (elem : list string) : list string :=
  match elem with
  | [] => []
  | e :: rest => if String.eqb e "" then dropEmpty rest else elem
  end.

(** path.Join(elem...): empty when every element is empty, otherwise
    the elements from the first non-empty one on, joined by slashes and
    cleaned. *)
Definition Join (elem : list string) : string :=
  match dropEmpty elem with
  | [] => ""
  | rest => Clean (GoStrings.Join rest "/")
  end.

(** The part of [p] up to and including its last slash. *)
Fixpoint dirPart (p : string) : string :=
  match p with
  | EmptyString => ""
  | String ch p' =>
      if Ascii.eqb ch slash then String ch (dirPart p')
      else match dirPart p' with
           | EmptyString => ""
           | d => String ch d
           end
  end.

(** path.Dir(p) *)
Definition Dir (p : string) : string := Clean (dirPart p).

(** path.Base(p) *)
Definition Base (p : string) : string :=
  if String.eqb p "" then "."
  else match last (filter (λ e, e ≠ "") (Split p slash)) with
       | Some e => e
       | None => "/"
       end.

End GoPath.

(** ** Labels (bazel-gazelle's [label] package)

    [label.Label] is a struct of three strings and a flag; the resolver
    reads and writes its fields directly and calls [Equal], [Abs], [Rel]
    and [String] on it. *)

Record Label := mkLabel {
  Repo : string;
  Pkg : string;
  Name : string;
  Relative : bool
}.

#[global] Instance Label_eq_dec : EqDecision Label.
Proof. solve_decision. Defined.

Module label.
Import GoStrings.

(** label.NoLabel: the zero value. *)
Definition NoLabel : Label := mkLabel "" "" "" false.

(** l.Equal(other): field-wise equality. *)
Definition Equal (l other : Label) : bool :=
  String.eqb (Repo l) (Repo other) && String.eqb (Pkg l) (Pkg other)
  && String.eqb (Name l) (Name other) && Bool.eqb (Relative l) (Relative other).

(** l.Abs(repo, pkg) *)
Definition Abs (l : Label) (repo pkg : string) : Label :=
  if negb (Relative l) then l else mkLabel repo pkg (Name l) false.

(** l.Rel(repo, pkg) *)
Definition Rel (l : Label) (repo pkg : string) : Label :=
  if Relative l || negb (String.eqb (Repo l) repo) then l
  else if String.eqb (Pkg l) pkg then mkLabel "" "" (Name l) true
  else mkLabel "" (Pkg l) (Name l) false.

(** l.String() *)
Definition String (l : Label) : string :=
  if Relative l then ":" +:+ Name l
  else
    let repo :=
      if negb (String.eqb (Repo l) "") && negb (String.eqb (Repo l) "@")
      then "@" +:+ Repo l else Repo l in
    if String.eqb (GoPath.Base (Pkg l)) (Name l)
    then repo +:+ "//" +:+ Pkg l
    else repo +:+ "//" +:+ Pkg l +:+ ":" +:+ Name l.

End label.

(** ** The resolver's data *)

(** resolve.ImportSpec *)
Record ImportSpec := mkImportSpec { Lang : string; Imp : string }.

(** resolve.FindResult *)
Record FindResult := mkFindResult { Label_ : Label; Embeds : list Label }.

(** r.IsSelfImport(from) *)
Definition IsSelfImport (r : FindResult) (from : Label) : bool :=
  label.Equal from (Label_ r) || existsb (label.Equal from) (Embeds r).

(** os.FileInfo, as far as [tryResolve] reads it. *)
Record FileInfo := mkFileInfo { fiName : string; IsDir : bool }.

(** One alias rule of the configuration. *)
Record ImportAlias := mkImportAlias { From : string; To : string }.

Record NpmDependencies_t := mkNpmDependencies {
  Dependencies : gmap string string;
  DevDependencies : gmap string string
}.

(** JsConfig, as far as the resolver reads it.  The compiled alias pattern
    is represented by its [FindStringSubmatch] method: the empty list is
    Go's nil (no match), and the head of a match is the matched text. *)
Record JsConfig := mkJsConfig {
  ImportAliasPattern : string → list string;
  ImportAliases : list ImportAlias;
  NpmDependencies : NpmDependencies_t;
  LookupTypes : bool;
  JSRoot : string;
  Quiet : bool;
  Verbose : bool;
  DefaultNpmLabel : string
}.

(** rule.Rule: its kind and its attributes.  [Resolve] only writes lists
    of strings. *)
Record Rule := mkRule { Kind : string; attrs : gmap string (list string) }.

Definition SetAttr (r : Rule) (key : string) (value : list string) : Rule :=
  mkRule (Kind r) (<[key := value]> (attrs r)).

Definition DelAttr (r : Rule) (key : string) : Rule :=
  mkRule (Kind r) (delete key (attrs r)).

(** What [log.Print] receives: a message wrapped by [Err] or by [Warn]. *)
Inductive LogEntry :=
| LogErr (msg : string)
| LogWarn (msg : string).

(** The result of [tryResolve]. *)
Record resolveResult := mkResolveResult {
  rlabel : Label;
  selfImport : bool;
  fileName : string;
  err : option string
}.

(** Everything the resolver calls but does not define: the configuration
    [c] with bazel-gazelle's override table, the rule index [ix], the file
    system, helpers and constants of the extension that live in other
    files, and the order in which the Go runtime enumerates a map. *)
Record Host := mkHost {
  (** lang.Name() *)
  languageName : string;
  (** c.RepoRoot *)
  RepoRoot : string;
  (** c.Exts[languageName].(JsConfigs)[pkg] *)
  jsConfigs : string → JsConfig;
  (** resolve.FindRuleWithOverride(c, spec, lang) *)
  FindRuleWithOverride : ImportSpec → string → option Label;
  (** ix.FindRulesByImportWithConfig(c, spec, lang) *)
  FindRulesByImportWithConfig : ImportSpec → string → list FindResult;
  (** os.Stat(name); [None] stands for a non-nil error. *)
  os_Stat : string → option FileInfo;
  (** lang.isWebAsset(jsConfig, path) *)
  isWebAsset : JsConfig → string → bool;
  (** getKind(c, kind) *)
  getKind : string → string;
  tsExtensions : list string;
  jsExtensions : list string;
  (** the order of [for k := range m] over a set *)
  rangeKeys : gset string → list string;
  (** the order of [for k, v := range m] over a table *)
  rangeTable : gmap string string → list (string * string)
}.

(** A Go [range] visits every key of the map exactly once, in an order
    the language leaves unspecified. *)
Definition range_complete (h : Host) : Prop :=
  (∀ s, rangeKeys h s ≡ₚ elements s) ∧
  (∀ m, rangeTable h m ≡ₚ map_to_list m).

(** BUILTINS *)
Definition BUILTINS : gset string :=
  list_to_set
    [ "assert"; "async_hooks"; "buffer"; "child_process"; "cluster";
      "console"; "constants"; "crypto"; "dgram"; "dns"; "domain"; "events";
      "fs"; "http"; "http2"; "https"; "inspector"; "module"; "net"; "os";
      "path"; "perf_hooks"; "process"; "punycode"; "querystring";
      "readline"; "repl"; "stream"; "string_decoder"; "timers"; "tls";
      "trace_events"; "tty"; "url"; "util"; "v8"; "vm"; "wasi";
      "worker_threads"; "zlib" ].

(** ** The resolver *)

Section Resolver.
Import GoStrings.

Variable h : Host.

(** *** isNpmDependency and hasPrefix *)

(** hasPrefix(suffixes, x) *)
Definition hasPrefix (suffixes : list string) (x : string) : bool :=
  existsb (HasPrefix x) suffixes.

(** The loop of [isNpmDependency] over the byte positions of [imp]:
    [seen] is [imp[:i]] and [rest] is [imp[i:]].  The first slash whose
    prefix is not "@types" ends the loop with that prefix; without such
    a slash the root stays the whole identifier.  ([range] over a Go
    string steps by UTF-8 sequences, but a slash byte is never inside
    one, so every slash position is visited.) *)
Fixpoint scanPackageRoot (imp seen rest : string) : string :=
  match rest with
  | EmptyString => imp
  | String ch rest' =>
      if Ascii.eqb ch "/" then
        if String.eqb seen "@types"
        then scanPackageRoot imp (seen +:+ String ch "") rest'
        else seen
      else scanPackageRoot imp (seen +:+ String ch "") rest'
  end.

Definition packageRoot (imp : string) : string := scanPackageRoot imp "" imp.

Definition npmExemptPrefixes : list string :=
  ["."; "/"; "../"; "~/"; "@/"; "~~/"].

Definition isNpmDependency (imp : string) (jsConfig : JsConfig)
  : bool * string * bool :=
  if hasPrefix npmExemptPrefixes imp then (false, "", false)
  else
    let packageRoot := packageRoot imp in
    match Dependencies (NpmDependencies jsConfig) !! packageRoot with
    | Some npmLabel => (true, npmLabel, false)
    | None =>
        match DevDependencies (NpmDependencies jsConfig) !! packageRoot with
        | Some npmLabel => (true, npmLabel, true)
        | None =>
            if HasPrefix imp "@types" then (false, "", false)
            else if HasPrefix imp "@" then (true, DefaultNpmLabel jsConfig, false)
            else (false, "", false)
        end
    end.

(** *** tryResolve *)

Definition noResult : resolveResult :=
  mkResolveResult label.NoLabel false "" None.

Definition ambiguousMessage (a b : Label) (target : string) : string :=
  "multiple rules (" +:+ label.String a +:+ " and " +:+ label.String b
    +:+ ") provide " +:+ target.

Definition setRepo (l : Label) (repo : string) : Label :=
  mkLabel repo (Pkg l) (Name l) (Relative l).

(** The second half of [tryResolve]: the query of the rule index and,
    without a match, of the file system. *)
Definition tryResolveIndex (target : string) (from : Label) : resolveResult :=
  let importSpec := mkImportSpec (languageName h) target in
  let matches := FindRulesByImportWithConfig h importSpec (languageName h) in
  match matches with
  | m0 :: m1 :: _ =>
      mkResolveResult label.NoLabel false ""
        (Some (ambiguousMessage (Label_ m0) (Label_ m1) target))
  | [] =>
      match os_Stat h (GoPath.Join [RepoRoot h; target]) with
      | Some fileInfo =>
          if negb (IsDir fileInfo)
          then mkResolveResult label.NoLabel false (fiName fileInfo) None
          else noResult
      | None => noResult
      end
  | [m0] =>
      if IsSelfImport m0 from
      then mkResolveResult label.NoLabel true "" None
      else mkResolveResult (Label_ m0) false "" None
  end.

Definition tryResolve (target : string) (from : Label) : resolveResult :=
  let importSpec := mkImportSpec (languageName h) target in
  match FindRuleWithOverride h importSpec (languageName h) with
  | Some override =>
      let override :=
        if String.eqb (Repo override) "" then setRepo override (Repo from)
        else override in
      if negb (label.Equal override from) then
        let override :=
          if String.eqb (Repo override) (Repo from) then setRepo override ""
          else override in
        mkResolveResult override false "" None
      else tryResolveIndex target from
  | None => tryResolveIndex target from
  end.

(** *** resolveWalkParents *)

(** The two sets that [Resolve] fills, and what was printed so far. *)
Record State := mkState {
  depSet : gset string;
  dataSet : gset string;
  logs : list LogEntry
}.

Definition addDep (x : string) (st : State) : State :=
  mkState ({[x]} ∪ depSet st) (dataSet st) (logs st).

Definition addData (x : string) (st : State) : State :=
  mkState (depSet st) ({[x]} ∪ dataSet st) (logs st).

Definition logPrint (es : list LogEntry) (st : State) : State :=
  mkState (depSet st) (dataSet st) (logs st ++ es).

Inductive ProbeOutcome :=
| Returned (st : State)
| NotFound (tries : list string).

(** The inner loop over [extraExtensionsToTry]. *)
Fixpoint probeExtensions (jsConfig : JsConfig) (from : Label) (target : string)
    (exts : list string) (tries : list string) (st : State) : ProbeOutcome :=
  match exts with
  | [] => NotFound tries
  | ext :: exts' =>
      let filePath := target +:+ ext in
      let tries := tries ++ [filePath] in
      let resolveResult := tryResolve filePath from in
      match err resolveResult with
      | Some e => Returned (logPrint [LogErr e] st)
      | None =>
          if selfImport resolveResult then Returned st
          else if negb (bool_decide (rlabel resolveResult = label.NoLabel)) then
            let dep := label.String
                         (label.Rel (rlabel resolveResult) (Repo from) (Pkg from)) in
            if negb (isWebAsset h jsConfig filePath)
            then Returned (addDep dep st)
            else Returned (addData dep st)
          else if negb (String.eqb (fileName resolveResult) "") then
            let pkgName := GoPath.Dir target in
            Returned (addData ("//" +:+ pkgName +:+ ":" +:+ fileName resolveResult) st)
          else probeExtensions jsConfig from target exts' tries st
      end
  end.

Definition normalizeName (name : string) : string :=
  let name := if String.eqb name "package" then "package.json" else name in
  if String.eqb name "." then "index" else name.

Definition notFoundLogs (jsConfig : JsConfig) (from : Label) (name : string)
    (tries : list string) : list LogEntry :=
  (if negb (Quiet jsConfig)
   then [LogErr ("[" +:+ label.String (label.Abs from (Repo from) (Pkg from))
                   +:+ "] import " +:+ name +:+ " not found")]
   else [])
  ++ (if Verbose jsConfig
      then LogWarn ("tried node_modules/" +:+ name)
             :: map (λ try, LogWarn ("tried " +:+ try)) tries
      else []).

(** The outer [for] loop; [fuel] bounds the number of its iterations
    and [None] means that the bound was reached. *)
Fixpoint walkParents (fuel : nat) (name parents : string) (tries : list string)
    (st : State) (from : Label) : option State :=
  match fuel with
  | O => None
  | S fuel' =>
      let jsConfig := jsConfigs h (Pkg from) in
      let name := normalizeName name in
      let localDir := GoPath.Join [Pkg from; parents] in
      let target := GoPath.Join [localDir; name] in
      let extraExtensionsToTry :=
        "" :: (if negb (isWebAsset h jsConfig target)
               then tsExtensions h ++ jsExtensions h else []) in
      match probeExtensions jsConfig from target extraExtensionsToTry tries st with
      | Returned st' => Some st'
      | NotFound tries' =>
          if String.eqb (JSRoot jsConfig) localDir || String.eqb localDir "."
          then Some (logPrint (notFoundLogs jsConfig from name tries') st)
          else walkParents fuel' name (parents +:+ "../") tries' st from
      end
  end.

Definition resolveWalkParents (fuel : nat) (name : string) (st : State)
    (from : Label) : option State :=
  walkParents fuel name "" [] st from.

(** *** Resolve *)

(** The alias rewriting at the head of the loop body. *)
Definition translateAlias (jsConfig : JsConfig) (name : string) : string :=
  match ImportAliasPattern jsConfig name with
  | [] => name
  | prefix :: _ =>
      let alias :=
        match find (λ impAlias, String.eqb (From impAlias) prefix)
                   (ImportAliases jsConfig) with
        | Some impAlias => To impAlias
        | None => ""
        end in
      alias +:+ TrimPrefix name prefix
  end.

(** The name under which an npm dependency is rendered: the first path
    element, and the second one too for a scoped package. *)
Definition npmPackageName (name : string) : string :=
  let s := Split name "/" in
  let name := hd "" s in
  if HasPrefix name "@" && (2 <=? length s)
  then name +:+ "/" +:+ nth 1 s ""
  else name.

(** The lookup of a companion "@types/..." package, for a ts_project
    when LookupTypes is on. *)
Definition addTypes (jsConfig : JsConfig) (r : Rule) (name : string)
    (st : State) : State :=
  if LookupTypes jsConfig && String.eqb (Kind r) "ts_project" then
    match isNpmDependency ("@types/" +:+ name) jsConfig with
    | (true, npmLabel, _) => addDep (npmLabel +:+ "@types/" +:+ name) st
    | _ => st
    end
  else st.

(** One iteration of the loop over [imports.set]. *)
Definition resolveImport (fuel : nat) (jsConfig : JsConfig) (r : Rule)
    (from : Label) (packageJSON : string) (name : string) (st : State)
  : option State :=
  if String.eqb name "package" || String.eqb name "package.json"
  then Some (addDep packageJSON st)
  else
    let name := translateAlias jsConfig name in
    match isNpmDependency name jsConfig with
    | (true, npmLabel, devDep) =>
        let name := npmPackageName name in
        let st := addDep (npmLabel +:+ name) st in
        let st := if negb devDep then addData (npmLabel +:+ name) st else st in
        Some (addTypes jsConfig r name st)
    | _ =>
        if HasPrefix name "node:" then Some (addTypes jsConfig r "node" st)
        else if bool_decide (name ∈ BUILTINS)
        then Some (addTypes jsConfig r name st)
        else
          let resolveResult := tryResolve name from in
          if bool_decide (err resolveResult = None)
             && negb (selfImport resolveResult)
             && negb (bool_decide (rlabel resolveResult = label.NoLabel))
          then
            let dep := label.String
                         (label.Rel (rlabel resolveResult) (Repo from) (Pkg from)) in
            Some (addDep dep st)
          else resolveWalkParents fuel name st from
    end.

(** The loop over [imports.set], in the order [names]. *)
Fixpoint resolveImports (fuel : nat) (jsConfig : JsConfig) (r : Rule)
    (from : Label) (packageJSON : string) (names : list string) (st : State)
  : option State :=
  match names with
  | [] => Some st
  | name :: names' =>
      match resolveImport fuel jsConfig r from packageJSON name st with
      | Some st' => resolveImports fuel jsConfig r from packageJSON names' st'
      | None => None
      end
  end.

(** One iteration of the loop over the dev dependencies of a jest_test. *)
Definition jestDependency (st : State) (entry : string * string) : State :=
  let '(name, npmLabel) := entry in
  if String.eqb name "jest-cli" || String.eqb name "jest-junit" then st
  else
    let st := if HasPrefix name "@types/jest"
              then addDep (npmLabel +:+ name) st else st in
    if HasPrefix name "jest"
    then addData (npmLabel +:+ name) (addDep (npmLabel +:+ name) st)
    else st.

(** "Add in additional jest dependencies" *)
Definition jestDependencies (jsConfig : JsConfig) (r : Rule) (st : State)
  : State :=
  if String.eqb (Kind r) (getKind h "jest_test") then
    let st := fold_left jestDependency
                (rangeTable h (DevDependencies (NpmDependencies jsConfig))) st in
    let packageLocation :=
      if String.eqb (JSRoot jsConfig) "." then "" else JSRoot jsConfig in
    addData ("//" +:+ packageLocation +:+ ":package_json") st
  else st.

(** The end of [Resolve]: both attributes are written from the sets. *)
Definition setOrDelAttr (r : Rule) (key : string) (value : list string) : Rule :=
  if 0 <? length value then SetAttr r key value else DelAttr r key.

Definition renderAttrs (r : Rule) (st : State) : Rule :=
  let deps := rangeKeys h (depSet st) in
  let r := setOrDelAttr r "deps" deps in
  let data := rangeKeys h (dataSet st) in
  setOrDelAttr r "data" data.

(** [Resolve] returns the rule as it leaves it and what it printed.
    [None]: some walk over the parent directories did not end within
    [fuel] iterations. *)
Definition Resolve (fuel : nat) (r : Rule) (imports : gset string)
    (from : Label) : option (Rule * list LogEntry) :=
  let jsConfig := jsConfigs h (Pkg from) in
  let packageJSON := "//:package" in
  let packageResolveResult := tryResolve "package.json" from in
  match err packageResolveResult with
  | Some e => Some (r, [LogErr e])
  | None =>
      if selfImport packageResolveResult then Some (r, [])
      else
        let packageJSON :=
          if negb (bool_decide (rlabel packageResolveResult = label.NoLabel))
          then label.String
                 (label.Abs (rlabel packageResolveResult) (Repo from) (Pkg from))
          else packageJSON in
        match resolveImports fuel jsConfig r from packageJSON
                (rangeKeys h imports) (mkState ∅ ∅ []) with
        | None => None
        | Some st =>
            let st := jestDependencies jsConfig r st in
            Some (renderAttrs r st, logs st)
        end
  end.

End Resolver.

(** ** Notions used in the statements *)

Section Notions.
Import GoStrings.

Variable h : Host.

(** The two reserved names of the manifest. *)
Definition isManifestName (name : string) : bool :=
  String.eqb name "package" || String.eqb name "package.json".

(** The import specification that [tryResolve] builds for [target]. *)
Definition specOf (target : string) : ImportSpec :=
  mkImportSpec (languageName h) target.

(** The override for [target] with an empty repository replaced by the
    one of the importing unit. *)
Definition defaultRepo (override from : Label) : Label :=
  if String.eqb (Repo override) "" then setRepo override (Repo from)
  else override.

(** The label an override is returned as. *)
Definition shortenRepo (override from : Label) : Label :=
  if String.eqb (Repo override) (Repo from) then setRepo override ""
  else override.

(** No override decides [target]: there is none, or the one there is
    names the importing unit. *)
Definition noEffectiveOverride (target : string) (from : Label) : Prop :=
  match FindRuleWithOverride h (specOf target) (languageName h) with
  | Some override => label.Equal (defaultRepo override from) from = true
  | None => True
  end.

(** The value of [parents] after [n] iterations of the walk. *)
Fixpoint parentsAt (n : nat) : string :=
  match n with
  | O => ""
  | S n' => parentsAt n' +:+ "../"
  end.

(** [localDir] in iteration [n]. *)
Definition localDirAt (from : Label) (n : nat) : string :=
  GoPath.Join [Pkg from; parentsAt n].

(** The test that ends an unsuccessful walk, in iteration [n]. *)
Definition stopsAt (from : Label) (n : nat) : bool :=
  String.eqb (JSRoot (jsConfigs h (Pkg from))) (localDirAt from n)
  || String.eqb (localDirAt from n) ".".

(** The sets that [Resolve] computes once it is past the manifest
    query: the loop over the identifiers followed by the jest extras. *)
Definition computeSets (fuel : nat) (r : Rule) (imports : gset string)
    (from : Label) : option State :=
  let jsConfig := jsConfigs h (Pkg from) in
  let packageResolveResult := tryResolve h "package.json" from in
  let packageJSON :=
    if negb (bool_decide (rlabel packageResolveResult = label.NoLabel))
    then label.String
           (label.Abs (rlabel packageResolveResult) (Repo from) (Pkg from))
    else "//:package" in
  jestDependencies h jsConfig r <$>
    resolveImports h fuel jsConfig r from packageJSON (rangeKeys h imports)
      (mkState ∅ ∅ []).

(** The initial "package.json" query neither fails nor finds the
    importing unit itself. *)
Definition manifestFound (from : Label) : Prop :=
  err (tryResolve h "package.json" from) = None
  ∧ selfImport (tryResolve h "package.json" from) = false.

(** A configured root that the climb from the root package never
    reaches: it is not empty and does not begin with "..". *)
Definition rootOutOfReach (jsConfig : JsConfig) : Prop :=
  JSRoot jsConfig ≠ "" ∧ HasPrefix (JSRoot jsConfig) ".." = false.

(** The string as which the resolver would render an edge to the
    importing unit: the label relative to the unit's own package. *)
Definition ownLabel (from : Label) : string :=
  label.String (label.Rel from (Repo from) (Pkg from)).

(** The string is not empty and does not begin with a colon: it is not
    a relative label. *)
Definition headNotColon (s : string) : bool :=
  match s with
  | EmptyString => false
  | String ch _ => negb (Ascii.eqb ch ":")
  end.

(** Every label that the override table or the index hands out is
    absolute. *)
Definition absoluteLabels : Prop :=
  (∀ spec lang l, FindRuleWithOverride h spec lang = Some l → Relative l = false)
  ∧ (∀ spec lang m, m ∈ FindRulesByImportWithConfig h spec lang →
                    Relative (Label_ m) = false).

(** The label prefixes of the npm tables are not relative labels. *)
Definition npmLabelsAbsolute (jsConfig : JsConfig) : Prop :=
  (∀ k l, Dependencies (NpmDependencies jsConfig) !! k = Some l →
          headNotColon l = true)
  ∧ (∀ k l, DevDependencies (NpmDependencies jsConfig) !! k = Some l →
            headNotColon l = true)
  ∧ headNotColon (DefaultNpmLabel jsConfig) = true.

(** Neither set holds the unit's own label. *)
Definition selfFree (from : Label) (st : State) : Prop :=
  (ownLabel from ∉ depSet st) ∧ (ownLabel from ∉ dataSet st).

(** An ordinary path element: not empty, not "." or "..", without a
    slash. *)
Definition plainElement (e : string) : Prop :=
  e ≠ "" ∧ e ≠ "." ∧ e ≠ ".." ∧ Contains e "/" = false.

End Notions.

(** ** Concrete configurations and hosts used in the examples *)

Definition demoTables : NpmDependencies_t :=
  mkNpmDependencies
    {[ "lodash" := "@npm//"; "@foo/bar" := "@npm//" ]}
    {[ "jest" := "@npm//"; "typescript" := "@npm//" ]}.

Definition demoConfig : JsConfig :=
  mkJsConfig (λ _, []) [] demoTables true "." false false "//:node_modules/".

Definition emptyConfig : JsConfig :=
  mkJsConfig (λ _, []) [] (mkNpmDependencies ∅ ∅) false "." false false
    "//:node_modules/".

Definition demoIndex (spec : ImportSpec) (lang : string) : list FindResult :=
  if String.eqb (Imp spec) "pkg/utils.ts"
  then [mkFindResult (mkLabel "" "pkg" "utils" false) []]
  else if String.eqb (Imp spec) "pkg/sub/dup"
  then [mkFindResult (mkLabel "" "a" "one" false) [];
        mkFindResult (mkLabel "" "b" "two" false) [];
        mkFindResult (mkLabel "" "c" "three" false) []]
  else if String.eqb (Imp spec) "pkg/sub/other.ts"
  then [mkFindResult (mkLabel "" "pkg/sub" "other" false) []]
  else [].

Definition demoHost : Host :=
  mkHost "js" "/repo" (λ _, demoConfig) (λ _ _, None) demoIndex (λ _, None)
    (λ _ _, false) (λ kind, kind) [".ts"; ".tsx"] [".js"]
    elements map_to_list.

Definition demoFrom : Label := mkLabel "" "pkg/sub" "lib" false.

(** The same host, with every set enumerated in the opposite order. *)
Definition reversedHost : Host :=
  mkHost "js" "/repo" (λ _, demoConfig) (λ _ _, None) demoIndex (λ _, None)
    (λ _ _, false) (λ kind, kind) [".ts"; ".tsx"] [".js"]
    (λ s, reverse (elements s)) map_to_list.

(** A host whose override table maps "shared/util" to the importing unit
    itself, while the index knows another owner of it. *)
Definition overrideHost : Host :=
  mkHost "js" "/repo" (λ _, demoConfig)
    (λ spec _, if String.eqb (Imp spec) "shared/util"
               then Some (mkLabel "" "pkg/sub" "lib" false)
               else if String.eqb (Imp spec) "shared/api"
               then Some (mkLabel "" "shared" "api" false)
               else None)
    (λ spec _, if String.eqb (Imp spec) "shared/util"
               then [mkFindResult (mkLabel "" "shared" "util" false) []]
               else [])
    (λ _, None) (λ _ _, false) (λ kind, kind) [".ts"; ".tsx"] [".js"]
    elements map_to_list.

Definition dupOne : FindResult := mkFindResult (mkLabel "" "a" "one" false) [].
Definition dupTwo : FindResult := mkFindResult (mkLabel "" "b" "two" false) [].
Definition dupThree : FindResult := mkFindResult (mkLabel "" "c" "three" false) [].

(** A host whose index knows two owners of "package.json". *)
Definition manifestHost : Host :=
  mkHost "js" "/repo" (λ _, demoConfig) (λ _ _, None)
    (λ spec _, if String.eqb (Imp spec) "package.json"
               then [mkFindResult (mkLabel "" "" "package" false) [];
                     mkFindResult (mkLabel "" "tools" "package" false) []]
               else [])
    (λ _, None) (λ _ _, false) (λ kind, kind) [".ts"; ".tsx"] [".js"]
    elements map_to_list.

Definition staleRule : Rule :=
  mkRule "ts_project" {[ "deps" := ["//stale:dep"]; "srcs" := ["lib.ts"] ]}.

(** A host that knows no rule and no file. *)
Definition emptyHost : Host :=
  mkHost "js" "/repo" (λ _, emptyConfig) (λ _ _, None) (λ _ _, [])
    (λ _, None) (λ _ _, false) (λ kind, kind) [".ts"; ".tsx"] [".js"]
    elements map_to_list.

Definition rootFrom : Label := mkLabel "" "" "lib" false.

(** The unit "package" of the root package. *)
Definition packageFrom : Label := mkLabel "" "" "package" false.

(** ** The index entries of a rule: Imports and Embeds *)

(** strings.HasSuffix(s, suffix) *)
Definition HasSuffix (s suffix : string) : bool :=
  (String.length suffix <=? String.length s)
  && String.eqb
       (String.substring (String.length s - String.length suffix)
          (String.length suffix) s)
       suffix.

(** strings.TrimSuffix(s, suffix) *)
Definition TrimSuffix (s suffix : string) : string :=
  if HasSuffix s suffix
  then String.substring 0 (String.length s - String.length suffix) s
  else s.

(** filepath.Dir(p) where the path separator is the slash: the path up
    to its last slash, cleaned, as path.Dir. *)
Definition filepath_Dir (p : string) : string := GoPath.Dir p.

(** rule.File, as far as [Imports] reads it. *)
Record File := mkFile { fPkg : string; fPath : string }.

(** r.AttrStrings(key): the empty list when the attribute is not set. *)
Definition AttrStrings (r : Rule) (key : string) : list string :=
  default [] (attrs r !! key).

(** What [Imports] calls and reads beyond the host of the resolver: the
    helper isBarrelFile and the CollectAll field of the configuration,
    which are declared in other files. *)
Record IndexHost := mkIndexHost {
  isBarrelFile : string → bool;
  CollectAll : JsConfig → bool
}.

Section Index.
Import GoStrings.

Variable h : Host.
Variable ih : IndexHost.

(** The specification under which a sub-directory is indexed. *)
Definition folderSpec (f : File) (base subDirectory : string) : ImportSpec :=
  let root := TrimSuffix base (fPkg f) in
  let relPath := TrimPrefix subDirectory root in
  mkImportSpec (languageName h) (fPkg f +:+ "/" +:+ relPath).

(** Imports: one specification per source file, one for the package
    directory when the rule has a barrel file, and with CollectAll one
    per directory of a source file, in the order in which the runtime
    enumerates the set of directories. *)
Definition Imports (r : Rule) (f : File) : list ImportSpec :=
  let jsConfig := jsConfigs h (fPkg f) in
  let srcs := AttrStrings r "srcs" in
  let importSpecs :=
    map (λ src, mkImportSpec (languageName h) (GoPath.Join [fPkg f; src])) srcs in
  let isBarrel := existsb (isBarrelFile ih) srcs in
  let importSpecs :=
    if isBarrel
    then importSpecs ++ [mkImportSpec (languageName h) (fPkg f)]
    else importSpecs in
  let folderImports :=
    CollectAll ih jsConfig
    && (String.eqb (Kind r) (getKind h "ts_project")
        || String.eqb (Kind r) (getKind h "js_library")) in
  if folderImports then
    let base := filepath_Dir (fPath f) in
    let subDirectories : gset string := list_to_set (map filepath_Dir srcs) in
    importSpecs ++ map (folderSpec f base) (rangeKeys h subDirectories)
  else importSpecs.

(** Embeds: no rule embeds another one.  (The name [Embeds] is taken by
    the field of [FindResult].) *)
Definition Embeds_ (r : Rule) (from : Label) : list Label := [].

End Index.

(** ** Further notions used in the statements *)

Section MoreNotions.
Import GoStrings.

Variable h : Host.

(** The state at the start of the loop over the identifiers. *)
Definition emptyState : State := mkState ∅ ∅ [].

(** [st] with the edges and the messages of [d] added. *)
Definition extend (st d : State) : State :=
  mkState (depSet d ∪ depSet st) (dataSet d ∪ dataSet st) (logs st ++ logs d).

(** The host [h] with other enumeration orders. *)
Definition withOrder (rk : gset string → list string)
    (rt : gmap string string → list (string * string)) : Host :=
  mkHost (languageName h) (RepoRoot h) (jsConfigs h) (FindRuleWithOverride h)
    (FindRulesByImportWithConfig h) (os_Stat h) (isWebAsset h) (getKind h)
    (tsExtensions h) (jsExtensions h) rk rt.

(** The host [h] with another override table. *)
Definition withOverrides (overrides : ImportSpec → string → option Label)
  : Host :=
  mkHost (languageName h) (RepoRoot h) (jsConfigs h) overrides
    (FindRulesByImportWithConfig h) (os_Stat h) (isWebAsset h) (getKind h)
    (tsExtensions h) (jsExtensions h) (rangeKeys h) (rangeTable h).

(** [extraExtensionsToTry] for [target]. *)
Definition extraExtensions (from : Label) (target : string) : list string :=
  "" :: (if negb (isWebAsset h (jsConfigs h (Pkg from)) target)
         then tsExtensions h ++ jsExtensions h else []).

(** [target] in iteration [n] of the walk for the normalized [name]. *)
Definition targetAt (from : Label) (name : string) (n : nat) : string :=
  GoPath.Join [localDirAt from n; name].

(** The paths probed in iteration [n], in order. *)
Definition probesAt (from : Label) (name : string) (n : nat) : list string :=
  map (λ ext, targetAt from name n +:+ ext)
    (extraExtensions from (targetAt from name n)).

(** The paths probed in iterations [j], ..., [j + k - 1], in order. *)
Fixpoint probesFrom (from : Label) (name : string) (j k : nat) : list string :=
  match k with
  | O => []
  | S k' => probesAt from name j ++ probesFrom from name (S j) k'
  end.

(** The dependency edges that the jest block draws from one entry of the
    dev-dependency table. *)
Definition jestDepEntry (name : string) : bool :=
  negb (String.eqb name "jest-cli" || String.eqb name "jest-junit")
  && (HasPrefix name "@types/jest" || HasPrefix name "jest").

(** The data edges that the jest block draws from one entry. *)
Definition jestDataEntry (name : string) : bool :=
  negb (String.eqb name "jest-cli" || String.eqb name "jest-junit")
  && HasPrefix name "jest".

End MoreNotions.

Definition demoIndexHost : IndexHost :=
  mkIndexHost (λ src, String.eqb src "index.ts" || String.eqb src "index.js")
    (λ _, true).

Definition plainIndexHost : IndexHost :=
  mkIndexHost (λ src, String.eqb src "index.ts" || String.eqb src "index.js")
    (λ _, false).

Definition demoFile : File := mkFile "pkg/sub" "/repo/pkg/sub/BUILD.bazel".

Definition demoSources : Rule :=
  mkRule "ts_project" {[ "srcs" := ["index.ts"; "lib/a.ts"; "lib/b.ts"] ]}.

(** A configuration whose dependency table lists the npm package
    "events", which shares its name with a builtin module, and one alias
    rule. *)
Definition eventsConfig : JsConfig :=
  mkJsConfig
    (λ name, if GoStrings.HasPrefix name "~/" then ["~/"] else [])
    [mkImportAlias "~/" "src/"]
    (mkNpmDependencies {[ "events" := "@npm//" ]} ∅)
    false "." false false "//:node_modules/".

(** A host with files on disk and web assets: "logo.svg" is a regular
    file and "icons" a directory below "pkg/sub", and the stylesheet
    "pkg/sub/style.css" is owned by a rule. *)
Definition assetHost : Host :=
  mkHost "js" "/repo" (λ _, demoConfig) (λ _ _, None)
    (λ spec _, if String.eqb (Imp spec) "pkg/sub/style.css"
               then [mkFindResult (mkLabel "" "pkg/sub" "styles" false) []]
               else [])
    (λ p, if String.eqb p "/repo/pkg/sub/logo.svg"
          then Some (mkFileInfo "logo.svg" false)
          else if String.eqb p "/repo/pkg/sub/icons"
          then Some (mkFileInfo "icons" true)
          else None)
    (λ _ p, HasSuffix p ".svg" || HasSuffix p ".css")
    (λ kind, kind) [".ts"; ".tsx"] [".js"] elements map_to_list.

Definition otherFrom : Label := mkLabel "" "pkg/sub" "other" false.

(** A host whose index knows the one owner of "package.json". *)
Definition ownerHost : Host :=
  mkHost "js" "/repo" (λ _, demoConfig) (λ _ _, None)
    (λ spec _, if String.eqb (Imp spec) "package.json"
               then [mkFindResult (mkLabel "" "" "pkg_json" false) []]
               else [])
    (λ _, None) (λ _ _, false) (λ kind, kind) [".ts"; ".tsx"] [".js"]
    elements map_to_list.

Definition ownerFrom : Label := mkLabel "" "" "pkg_json" false.

(** A host whose override table has entries for the npm package
    "lodash" and for the builtin module "fs". *)
Definition shadowedOverrideHost : Host :=
  mkHost "js" "/repo" (λ _, demoConfig)
    (λ spec _, if String.eqb (Imp spec) "lodash"
               then Some (mkLabel "" "third_party" "lodash" false)
               else if String.eqb (Imp spec) "fs"
               then Some (mkLabel "" "third_party" "fs" false)
               else None)
    (λ _ _, []) (λ _, None) (λ _ _, false) (λ kind, kind)
    [".ts"; ".tsx"] [".js"] elements map_to_list.

(** An enumeration of sets other than [elements]. *)
Definition reversedKeys (s : gset string) : list string := reverse (elements s).

(** * Properties *)

(** ** Examples of path.Join, path.Dir and path.Base *)

Example Join_root_pkg : GoPath.Join [""; ""] = "".
Proof. reflexivity. Qed.
Example Join_up1 : GoPath.Join ["pkg/sub"; "../"] = "pkg".
Proof. reflexivity. Qed.
Example Join_up2 : GoPath.Join ["pkg/sub"; "../../"] = ".".
Proof. reflexivity. Qed.
Example Join_up_root : GoPath.Join [""; "../../"] = "../..".
Proof. reflexivity. Qed.
Example Join_name : GoPath.Join ["pkg/sub"; "./utils"] = "pkg/sub/utils".
Proof. reflexivity. Qed.
Example Join_abs : GoPath.Join ["/a"; "../../"] = "/".
Proof. reflexivity. Qed.
Example Dir_ex : GoPath.Dir "pkg/sub/utils.css" = "pkg/sub".
Proof. reflexivity. Qed.
Example Dir_ex2 : GoPath.Dir "utils.css" = ".".
Proof. reflexivity. Qed.
Example Base_ex : GoPath.Base "a//b/" = "b".
Proof. reflexivity. Qed.

(** ** Facts about strings *)

Section StringFacts.
Import GoStrings.

Lemma append_nil_l (a : string) : "" +:+ a = a.
Proof. reflexivity. Qed.

Lemma append_cons (ch : ascii) (a b : string) :
  String ch a +:+ b = String ch (a +:+ b).
Proof. reflexivity. Qed.

Lemma append_assoc (a b c : string) : (a +:+ b) +:+ c = a +:+ b +:+ c.
Proof.
  induction a as [|ch a IH]; [done |]. by rewrite !append_cons, IH.
Qed.

Lemma append_nil_r (a : string) : a +:+ "" = a.
Proof.
  induction a as [|ch a IH]; [done |]. by rewrite append_cons, IH.
Qed.

Lemma stripPrefix_Some (s p r : string) :
  stripPrefix s p = Some r ↔ s = p +:+ r.
Proof.
  revert s. induction p as [|a p IH]; intros s; simpl.
  - split; [by intros [= ->] | by intros ->].
  - destruct s as [|b s]; [split; [done | by intros [=]] |].
    destruct (Ascii.eqb_spec a b) as [->|Hne].
    + rewrite IH, append_cons. split; [by intros -> | by intros [= ->]].
    + rewrite append_cons. split; [done | intros [= ? ?]; by subst].
Qed.

Lemma HasPrefix_true (s p : string) :
  HasPrefix s p = true ↔ ∃ r, s = p +:+ r.
Proof.
  unfold HasPrefix. destruct (stripPrefix s p) as [r|] eqn:E.
  - apply stripPrefix_Some in E. split; [eauto | done].
  - split; [done |]. intros [r Hr]. apply stripPrefix_Some in Hr. congruence.
Qed.

Lemma HasPrefix_app (p r : string) : HasPrefix (p +:+ r) p = true.
Proof. apply HasPrefix_true. eauto. Qed.

(** A string that does not contain the slash has no slash at its head,
    and neither has its tail. *)
Lemma Contains_slash_cons (ch : ascii) (a : string) :
  Contains (String ch a) "/" = false →
  Ascii.eqb ch "/" = false ∧ Contains a "/" = false.
Proof.
  cbn [Contains]. unfold HasPrefix at 1. cbn [stripPrefix].
  rewrite (Ascii.eqb_sym "/" ch).
  destruct (Ascii.eqb ch "/"); [done |]. by intros H.
Qed.

End StringFacts.

(** ** The package root of an identifier *)

Section PackageRoot.
Import GoStrings.

Lemma scan_no_slash (imp seen a : string) :
  Contains a "/" = false → scanPackageRoot imp seen a = imp.
Proof.
  revert seen. induction a as [|ch a IH]; intros seen Ha; simpl; [done |].
  apply Contains_slash_cons in Ha as [-> Ha]. by apply IH.
Qed.

Lemma scan_to_slash (imp seen a b : string) :
  Contains a "/" = false →
  scanPackageRoot imp seen (a +:+ "/" +:+ b) =
    if String.eqb (seen +:+ a) "@types"
    then scanPackageRoot imp (seen +:+ a +:+ "/") b
    else seen +:+ a.
Proof.
  revert seen. induction a as [|ch a IH]; intros seen Ha.
  - rewrite append_nil_l, append_nil_r, append_cons. simpl.
    by rewrite append_nil_l.
  - apply Contains_slash_cons in Ha as [Hch Ha].
    rewrite append_cons. simpl. rewrite Hch.
    rewrite IH by done. by rewrite !append_assoc, !append_cons, !append_nil_l.
Qed.

(** The root is the whole identifier, or a prefix of it. *)
Lemma scan_prefix (imp seen rest : string) :
  scanPackageRoot imp seen rest = imp ∨
  ∃ a t, rest = a +:+ t ∧ scanPackageRoot imp seen rest = seen +:+ a.
Proof.
  revert seen. induction rest as [|ch rest IH]; intros seen; simpl; [by left |].
  assert (Hstep : scanPackageRoot imp (seen +:+ String ch "") rest = imp ∨
            ∃ a t, String ch rest = a +:+ t ∧
              scanPackageRoot imp (seen +:+ String ch "") rest = seen +:+ a).
  { destruct (IH (seen +:+ String ch "")) as [?|(a & t & -> & EQ)]; [by left |].
    right. exists (String ch a), t. split; [done |].
    by rewrite EQ, append_assoc. }
  destruct (Ascii.eqb ch "/"); [|done].
  destruct (String.eqb seen "@types"); [done |].
  right. exists "", (String ch rest). by rewrite append_nil_r.
Qed.

Lemma packageRoot_at_sign (imp : string) :
  HasPrefix (packageRoot imp) "@" = true → HasPrefix imp "@" = true.
Proof.
  unfold packageRoot.
  destruct (scan_prefix imp "" imp) as [->|(a & t & Himp & ->)]; [done |].
  rewrite append_nil_l, !HasPrefix_true. intros [r ->].
  exists (r +:+ t). by rewrite Himp, append_assoc.
Qed.

End PackageRoot.

(** ** Classification of external packages *)

Section Classification.
Import GoStrings.

(** C4, as the code has it: the root that [isNpmDependency] looks up,
    first in the dependency table and then in the dev-dependency table,
    is the text before the first slash of the identifier; only the slash
    that directly follows a leading "@types" is skipped, the root then
    being the text before the next slash.  An identifier without such a
    slash is its own root.  A scoped identifier other than "@types/..."
    is therefore looked up under its scope alone. *)
Theorem packageRoot_lookup (imp : string) (jsConfig : JsConfig) :
  hasPrefix npmExemptPrefixes imp = false →
  ((Contains imp "/" = false → packageRoot imp = imp)
   ∧ (∀ a b, imp = a +:+ "/" +:+ b → Contains a "/" = false →
             a ≠ "@types" → packageRoot imp = a)
   ∧ (∀ b, imp = "@types/" +:+ b → Contains b "/" = false →
           packageRoot imp = imp)
   ∧ (∀ b c, imp = "@types/" +:+ b +:+ "/" +:+ c → Contains b "/" = false →
             packageRoot imp = "@types/" +:+ b))
  ∧ (∀ npmLabel,
       Dependencies (NpmDependencies jsConfig) !! packageRoot imp = Some npmLabel →
       isNpmDependency imp jsConfig = (true, npmLabel, false))
  ∧ (∀ npmLabel,
       Dependencies (NpmDependencies jsConfig) !! packageRoot imp = None →
       DevDependencies (NpmDependencies jsConfig) !! packageRoot imp = Some npmLabel →
       isNpmDependency imp jsConfig = (true, npmLabel, true)).
Proof.
  intros Hex. split; [repeat split |].
  - intros Hns. by apply scan_no_slash.
  - intros a b -> Ha Hne. unfold packageRoot.
    rewrite scan_to_slash, append_nil_l by done.
    by apply String.eqb_neq in Hne as ->.
  - intros b -> Hb. unfold packageRoot.
    rewrite (scan_to_slash _ "" "@types" b) by done.
    rewrite append_nil_l, String.eqb_refl. by apply scan_no_slash.
  - intros b c -> Hb. unfold packageRoot.
    rewrite (scan_to_slash _ "" "@types" (b +:+ "/" +:+ c)) by done.
    rewrite append_nil_l, String.eqb_refl.
    rewrite scan_to_slash by done.
    change (("" +:+ "@types" +:+ "/") +:+ b) with ("@types/" +:+ b).
    by destruct (String.eqb_spec ("@types/" +:+ b) "@types") as [[=]|_].
  - unfold isNpmDependency. rewrite Hex. split.
    + by intros l ->.
    + by intros l -> ->.
Qed.

Lemma packageRoot_lookup_witness :
  packageRoot "@types/node/fs" = "@types/node"
  ∧ isNpmDependency "lodash/fp" demoConfig = (true, "@npm//", false).
Proof.
  destruct (packageRoot_lookup "@types/node/fs" demoConfig eq_refl)
    as [(_ & _ & _ & H4) _].
  destruct (packageRoot_lookup "lodash/fp" demoConfig eq_refl)
    as [_ [Hdep _]].
  split.
  - exact (H4 "node" "fs" eq_refl eq_refl).
  - exact (Hdep "@npm//" eq_refl).
Defined.

(** C4 fails as stated: "@foo/bar/x" is looked up under "@foo", so the
    entry of "@foo/bar" in the dependency table is not found and the
    default label is used. *)
Lemma scoped_root_counterexample :
  packageRoot "@foo/bar/x" ≠ "@foo/bar"
  ∧ packageRoot "@foo/bar/x" = "@foo"
  ∧ Dependencies (NpmDependencies demoConfig) !! "@foo/bar" = Some "@npm//"
  ∧ isNpmDependency "@foo/bar/x" demoConfig = (true, "//:node_modules/", false).
Proof. by vm_compute. Qed.

End Classification.

(** ** The external-package branch of the import loop *)

Section NpmBranch.
Import GoStrings.

Variable h : Host.

Lemma addTypes_dataSet jsConfig r name st :
  dataSet (addTypes jsConfig r name st) = dataSet st.
Proof.
  unfold addTypes. destruct (_ && _); [|done].
  by destruct (isNpmDependency _ _) as [[[] ?] ?].
Qed.

Lemma addTypes_depSet jsConfig r name st :
  depSet st ⊆ depSet (addTypes jsConfig r name st).
Proof.
  unfold addTypes. destruct (_ && _); [|done].
  destruct (isNpmDependency _ _) as [[[] ?] ?]; [|done].
  simpl. set_solver.
Qed.

Lemma addTypes_logs jsConfig r name st :
  logs (addTypes jsConfig r name st) = logs st.
Proof.
  unfold addTypes. destruct (_ && _); [|done].
  by destruct (isNpmDependency _ _) as [[[] ?] ?].
Qed.

(** What one iteration does with an identifier that [isNpmDependency]
    accepts. *)
Lemma resolveImport_npm fuel jsConfig r from packageJSON name st npmLabel devDep :
  isManifestName name = false →
  isNpmDependency (translateAlias jsConfig name) jsConfig = (true, npmLabel, devDep) →
  resolveImport h fuel jsConfig r from packageJSON name st =
    let pkg := npmPackageName (translateAlias jsConfig name) in
    let st1 := addDep (npmLabel +:+ pkg) st in
    Some (addTypes jsConfig r pkg
            (if devDep then st1 else addData (npmLabel +:+ pkg) st1)).
Proof.
  unfold isManifestName, resolveImport. intros -> ->. by destruct devDep.
Qed.

(** C5, as the code has it: an identifier that starts with none of the
    exempt prefixes and not with "@types", whose package root is in
    neither table and starts with "@", is classified as an external
    runtime package under the configured default label; the loop body
    then adds the label to both sets and returns without walking any
    directory, whatever the fuel. *)
Theorem default_label_fallback (jsConfig : JsConfig) (imp : string) :
  hasPrefix npmExemptPrefixes imp = false →
  HasPrefix imp "@types" = false →
  Dependencies (NpmDependencies jsConfig) !! packageRoot imp = None →
  DevDependencies (NpmDependencies jsConfig) !! packageRoot imp = None →
  HasPrefix (packageRoot imp) "@" = true →
  isNpmDependency imp jsConfig = (true, DefaultNpmLabel jsConfig, false)
  ∧ ∀ fuel r from packageJSON name st,
      isManifestName name = false →
      translateAlias jsConfig name = imp →
      resolveImport h fuel jsConfig r from packageJSON name st =
        let dep := DefaultNpmLabel jsConfig +:+ npmPackageName imp in
        Some (addTypes jsConfig r (npmPackageName imp)
                (addData dep (addDep dep st))).
Proof.
  intros Hex Hty Hdep Hdev Hat.
  assert (Hnpm : isNpmDependency imp jsConfig
                 = (true, DefaultNpmLabel jsConfig, false)).
  { unfold isNpmDependency. rewrite Hex, Hdep, Hdev, Hty.
    by rewrite (packageRoot_at_sign _ Hat). }
  split; [done |].
  intros fuel r from packageJSON name st Hman Hal.
  rewrite (resolveImport_npm _ _ _ _ _ _ _ (DefaultNpmLabel jsConfig) false Hman);
    by rewrite Hal.
Qed.

(** C10: the external-package branch always returns, and it inserts the
    label of the package into the dependency set whatever the two sets
    held before.  The data set gains that label and nothing else, and
    only for a package that is no dev dependency: so every label that
    enters the data set here is in the dependency set afterwards.
    Nothing is removed from the dependency set. *)
Theorem npm_data_implies_deps fuel jsConfig r from packageJSON name st
    npmLabel devDep :
  isManifestName name = false →
  isNpmDependency (translateAlias jsConfig name) jsConfig = (true, npmLabel, devDep) →
  let dep := npmLabel +:+ npmPackageName (translateAlias jsConfig name) in
  ∃ st', resolveImport h fuel jsConfig r from packageJSON name st = Some st'
         ∧ dep ∈ depSet st'
         ∧ dataSet st' = (if devDep then dataSet st else {[dep]} ∪ dataSet st)
         ∧ (∀ x, x ∈ dataSet st' → x ∉ dataSet st → x ∈ depSet st')
         ∧ (devDep = false → dep ∈ dataSet st')
         ∧ depSet st ⊆ depSet st'.
Proof.
  intros Hman Hnpm dep. eexists. split; [by apply resolveImport_npm |].
  cbn zeta. fold dep.
  assert (Hdep : dep ∈ depSet (addTypes jsConfig r
                     (npmPackageName (translateAlias jsConfig name))
                     (if devDep then addDep dep st
                      else addData dep (addDep dep st)))).
  { apply addTypes_depSet. destruct devDep; simpl; by apply elem_of_union_l,
      elem_of_singleton. }
  split; [exact Hdep |]. rewrite addTypes_dataSet.
  split; [by destruct devDep |].
  split; [|split].
  - intros x Hin Hnew.
    destruct devDep; simpl in Hin; [done |].
    apply elem_of_union in Hin as [Hin|Hin]; [|done].
    apply elem_of_singleton in Hin. by subst x.
  - intros ->. simpl. by apply elem_of_union_l, elem_of_singleton.
  - etrans; [|apply addTypes_depSet].
    destruct devDep; simpl; apply union_subseteq_r.
Qed.

(** C2, as the code has it: inside the import loop an identifier that is
    classified as a dev dependency adds its label to the dependency set
    and leaves the data set as it was. *)
Theorem dev_dependency_not_data fuel jsConfig r from packageJSON name st npmLabel :
  isManifestName name = false →
  isNpmDependency (translateAlias jsConfig name) jsConfig = (true, npmLabel, true) →
  ∃ st', resolveImport h fuel jsConfig r from packageJSON name st = Some st'
         ∧ dataSet st' = dataSet st
         ∧ npmLabel +:+ npmPackageName (translateAlias jsConfig name) ∈ depSet st'.
Proof.
  intros Hman Hnpm. eexists. split; [by apply resolveImport_npm |].
  cbn zeta. split.
  - by rewrite addTypes_dataSet.
  - apply addTypes_depSet. simpl. set_solver.
Qed.

End NpmBranch.

Section NpmBranchExamples.
Import GoStrings.

Lemma default_label_fallback_witness :
  isNpmDependency "@scope/ui/button" demoConfig
    = (true, "//:node_modules/", false).
Proof.
  apply (default_label_fallback demoHost demoConfig "@scope/ui/button");
    vm_compute; reflexivity.
Defined.

(** C5 fails as stated: "@types/foo" is in neither table and its root
    starts with "@", yet it is not classified as an external package. *)
Lemma types_prefix_counterexample :
  let imp := "@types/foo" in
  isManifestName imp = false
  ∧ bool_decide (imp ∈ BUILTINS) = false
  ∧ FindRuleWithOverride demoHost (mkImportSpec "js" imp) "js" = None
  ∧ Dependencies (NpmDependencies demoConfig) !! packageRoot imp = None
  ∧ DevDependencies (NpmDependencies demoConfig) !! packageRoot imp = None
  ∧ HasPrefix (packageRoot imp) "@" = true
  ∧ isNpmDependency imp demoConfig = (false, "", false).
Proof. by vm_compute. Qed.

Lemma npm_data_implies_deps_witness :
  ∃ st', resolveImport demoHost 0 demoConfig (mkRule "js_library" ∅) demoFrom
           "//:package" "lodash/fp" (mkState ∅ {["@npm//lodash"]} []) = Some st'
         ∧ "@npm//lodash" ∈ depSet st'
         ∧ dataSet st' = {["@npm//lodash"]} ∪ {["@npm//lodash"]}.
Proof.
  destruct (npm_data_implies_deps demoHost 0 demoConfig (mkRule "js_library" ∅)
              demoFrom "//:package" "lodash/fp" (mkState ∅ {["@npm//lodash"]} [])
              "@npm//" false eq_refl eq_refl) as (st' & Hst & Hdep & Hdata & _).
  exists st'. split; [exact Hst |]. split; [exact Hdep | exact Hdata].
Defined.

Lemma dev_dependency_not_data_witness :
  ∃ st', resolveImport demoHost 0 demoConfig (mkRule "js_library" ∅) demoFrom
           "//:package" "typescript" (mkState ∅ ∅ []) = Some st'
         ∧ dataSet st' = ∅ ∧ "@npm//typescript" ∈ depSet st'.
Proof.
  exact (dev_dependency_not_data demoHost 0 demoConfig (mkRule "js_library" ∅)
           demoFrom "//:package" "typescript" (mkState ∅ ∅ []) "@npm//"
           eq_refl eq_refl).
Defined.

(** C2 fails as stated: for a jest_test, the label of the dev dependency
    "jest" is drawn from the dev-dependency table and put into the data
    attribute. *)
Lemma jest_counterexample :
  DevDependencies (NpmDependencies demoConfig) !! "jest" = Some "@npm//"
  ∧ ∃ r' out,
      Resolve demoHost 1 (mkRule "jest_test" ∅) ∅ demoFrom = Some (r', out)
      ∧ attrs r' !! "data" = Some ["//:package_json"; "@npm//jest"].
Proof. split; [by vm_compute |]. eexists _, _. split; by vm_compute. Qed.

End NpmBranchExamples.

(** ** tryResolve: overrides and ambiguous index matches *)

Section TryResolve.
Import GoStrings.

Variable h : Host.

Lemma tryResolve_no_override target from :
  FindRuleWithOverride h (specOf h target) (languageName h) = None →
  tryResolve h target from = tryResolveIndex h target from.
Proof. unfold tryResolve, specOf. by intros ->. Qed.

Lemma tryResolve_override target from override :
  FindRuleWithOverride h (specOf h target) (languageName h) = Some override →
  tryResolve h target from =
    if label.Equal (defaultRepo override from) from
    then tryResolveIndex h target from
    else mkResolveResult (shortenRepo (defaultRepo override from) from)
           false "" None.
Proof.
  unfold tryResolve, specOf, defaultRepo, shortenRepo. intros ->.
  by destruct (label.Equal _ from).
Qed.

Lemma tryResolveIndex_ambiguous target from m0 m1 more :
  FindRulesByImportWithConfig h (specOf h target) (languageName h)
    = m0 :: m1 :: more →
  tryResolveIndex h target from =
    mkResolveResult label.NoLabel false ""
      (Some (ambiguousMessage (Label_ m0) (Label_ m1) target)).
Proof. unfold tryResolveIndex, specOf. by intros ->. Qed.

Lemma tryResolve_index target from :
  noEffectiveOverride h target from →
  tryResolve h target from = tryResolveIndex h target from.
Proof.
  unfold noEffectiveOverride.
  destruct (FindRuleWithOverride _ _ _) as [o|] eqn:E.
  - intros Heq. by rewrite (tryResolve_override _ _ _ E), Heq.
  - intros _. by apply tryResolve_no_override.
Qed.

Lemma probeExtensions_app jsConfig from target exts1 exts2 tries st :
  (∀ e, e ∈ exts1 → tryResolve h (target +:+ e) from = noResult) →
  probeExtensions h jsConfig from target (exts1 ++ exts2) tries st =
    probeExtensions h jsConfig from target exts2
      (tries ++ map (λ e, target +:+ e) exts1) st.
Proof.
  revert tries. induction exts1 as [|e exts1 IH]; intros tries Hnone.
  - by rewrite app_nil_r.
  - cbn [app probeExtensions map].
    rewrite (Hnone e) by apply list_elem_of_here. cbn.
    rewrite IH.
    + by rewrite <- app_assoc.
    + intros e' He'. apply Hnone. by apply list_elem_of_further.
Qed.

(** C1, as the code has it.  When the index returns more than one owner
    for a query that no override answers, [tryResolve] returns an error
    whose message names the first two owners and the target.  On the
    initial "package.json" query this ends [Resolve] with the rule as it
    was.  In the walk over the parent directories it ends the walk for
    that identifier: the error is printed and neither set changes.  The
    loop over the identifiers has no exit: it goes on with the next
    identifier from whatever state the previous one left. *)
Theorem ambiguous_match target from m0 m1 more :
  noEffectiveOverride h target from →
  FindRulesByImportWithConfig h (specOf h target) (languageName h)
    = m0 :: m1 :: more →
  let msg := ambiguousMessage (Label_ m0) (Label_ m1) target in
  tryResolve h target from = mkResolveResult label.NoLabel false "" (Some msg)
  ∧ (target = "package.json" →
     ∀ fuel r imports, Resolve h fuel r imports from = Some (r, [LogErr msg]))
  ∧ (∀ fuel name parents tries st exts1 ext exts2,
       let jsConfig := jsConfigs h (Pkg from) in
       let localDir := GoPath.Join [Pkg from; parents] in
       let base := GoPath.Join [localDir; normalizeName name] in
       ("" :: (if negb (isWebAsset h jsConfig base)
               then tsExtensions h ++ jsExtensions h else []))
         = exts1 ++ ext :: exts2 →
       (∀ e, e ∈ exts1 → tryResolve h (base +:+ e) from = noResult) →
       target = base +:+ ext →
       walkParents h (S fuel) name parents tries st from
         = Some (logPrint [LogErr msg] st))
  ∧ (∀ fuel jsConfig r packageJSON name names st st1,
       resolveImport h fuel jsConfig r from packageJSON name st = Some st1 →
       resolveImports h fuel jsConfig r from packageJSON (name :: names) st
         = resolveImports h fuel jsConfig r from packageJSON names st1).
Proof.
  intros Hov Hix msg.
  assert (Htry : tryResolve h target from
                 = mkResolveResult label.NoLabel false "" (Some msg)).
  { rewrite tryResolve_index by done. by eapply tryResolveIndex_ambiguous. }
  split; [done |]. split; [|split].
  - intros -> fuel r imports. unfold Resolve. by rewrite Htry.
  - intros fuel name parents tries st exts1 ext exts2 jsConfig localDir base
      Hexts Hnone ->.
    cbn [walkParents]. fold jsConfig localDir base. rewrite Hexts.
    rewrite probeExtensions_app by done.
    cbn [probeExtensions]. by rewrite Htry.
  - intros fuel jsConfig r packageJSON name names st st1 Hst.
    cbn [resolveImports]. by rewrite Hst.
Qed.


End TryResolve.

Section TryResolveExamples.
Import GoStrings.

Lemma ambiguous_match_witness :
  tryResolve demoHost "pkg/sub/dup" demoFrom
    = mkResolveResult label.NoLabel false ""
        (Some "multiple rules (//a:one and //b:two) provide pkg/sub/dup")
  ∧ walkParents demoHost 1 "./dup" "" [] (mkState {["x"]} ∅ []) demoFrom
    = Some (mkState {["x"]} ∅
              [LogErr "multiple rules (//a:one and //b:two) provide pkg/sub/dup"]).
Proof.
  destruct (ambiguous_match demoHost "pkg/sub/dup" demoFrom dupOne dupTwo
              [dupThree] I eq_refl) as (Htry & _ & Hwalk & _).
  split; [exact Htry |].
  refine (Hwalk 0 "./dup" "" [] (mkState {["x"]} ∅ []) [] ""
            [".ts"; ".tsx"; ".js"] eq_refl _ eq_refl).
  intros e He. by apply elem_of_nil in He.
Defined.

(** C1 fails as stated: with three owners the message names two of
    them, and after the ambiguous identifier "./dup" the loop still
    resolves "./other" and writes it to the rule. *)
Lemma ambiguity_counterexample :
  FindRulesByImportWithConfig reversedHost (mkImportSpec "js" "pkg/sub/dup") "js"
    = [dupOne; dupTwo; dupThree]
  ∧ rangeKeys reversedHost {["./dup"; "./other"]} = ["./dup"; "./other"]
  ∧ ∃ r' msg,
      Resolve reversedHost 1 (mkRule "ts_project" ∅) {["./dup"; "./other"]} demoFrom
        = Some (r', [LogErr msg])
      ∧ attrs r' !! "deps" = Some [":other"]
      ∧ Contains msg (label.String (Label_ dupThree)) = false.
Proof.
  split; [by vm_compute |]. split; [by vm_compute |].
  eexists _, _. split; [by vm_compute |]. split; by vm_compute.
Qed.



End TryResolveExamples.

(** ** The walk over the parent directories ends when a stop directory is met *)

Section WalkEnds.
Import GoStrings.

Variable h : Host.

Lemma walkParents_ends from d : ∀ j fuel name tries st,
  stopsAt h from (j + d) = true → d < fuel →
  is_Some (walkParents h fuel name (parentsAt j) tries st from).
Proof.
  induction d as [|d IH]; intros j fuel name tries st Hstop Hfuel;
    (destruct fuel as [|fuel]; [lia |]); cbn [walkParents];
    destruct (probeExtensions _ _ _ _ _ _ _) as [st'|tries']; try done.
  - rewrite Nat.add_0_r in Hstop. unfold stopsAt, localDirAt in Hstop.
    by rewrite Hstop.
  - destruct (_ || _); [done |].
    apply (IH (S j)); [|lia].
    by replace (S j + d) with (j + S d) by lia.
Qed.

Lemma resolveWalkParents_ends from d fuel name st :
  stopsAt h from d = true → d < fuel →
  is_Some (resolveWalkParents h fuel name st from).
Proof. intros. by apply (walkParents_ends from d 0). Qed.

Lemma resolveImport_ends from d fuel jsConfig r packageJSON name st :
  stopsAt h from d = true → d < fuel →
  is_Some (resolveImport h fuel jsConfig r from packageJSON name st).
Proof.
  intros Hstop Hfuel. unfold resolveImport.
  destruct (_ || _); [done |].
  destruct (isNpmDependency _ _) as [[[] ?] ?]; [done |].
  destruct (HasPrefix _ _); [done |].
  destruct (bool_decide (_ ∈ BUILTINS)); [done |].
  destruct (_ && _); [done |].
  by eapply resolveWalkParents_ends.
Qed.

Lemma resolveImports_ends from d fuel jsConfig r packageJSON names : ∀ st,
  stopsAt h from d = true → d < fuel →
  is_Some (resolveImports h fuel jsConfig r from packageJSON names st).
Proof.
  induction names as [|name names IH]; intros st Hstop Hfuel; [done |].
  cbn [resolveImports].
  destruct (resolveImport_ends from d fuel jsConfig r packageJSON name st
              Hstop Hfuel) as [st' ->].
  by apply IH.
Qed.

Lemma Resolve_computeSets fuel r imports from :
  manifestFound h from →
  Resolve h fuel r imports from =
    (λ st, (renderAttrs h r st, logs st)) <$> computeSets h fuel r imports from.
Proof.
  intros [Herr Hself]. unfold Resolve, computeSets. rewrite Herr, Hself.
  by destruct (resolveImports _ _ _ _ _ _ _ _).
Qed.

Lemma computeSets_ends fuel r imports from d :
  stopsAt h from d = true → d < fuel →
  is_Some (computeSets h fuel r imports from).
Proof.
  intros Hstop Hfuel. unfold computeSets.
  edestruct resolveImports_ends as [st ->]; [done..|]. by eexists.
Qed.

(** The computed sets depend on the kind of the rule only, not on the
    attributes it had. *)
Lemma addTypes_kind jsConfig r r2 name st :
  Kind r2 = Kind r →
  addTypes jsConfig r2 name st = addTypes jsConfig r name st.
Proof. unfold addTypes. by intros ->. Qed.

Lemma resolveImports_kind fuel jsConfig r r2 from packageJSON names :
  Kind r2 = Kind r → ∀ st,
  resolveImports h fuel jsConfig r2 from packageJSON names st
    = resolveImports h fuel jsConfig r from packageJSON names st.
Proof.
  intros Hk. induction names as [|name names IH]; intros st; [done |].
  cbn [resolveImports].
  assert (resolveImport h fuel jsConfig r2 from packageJSON name st
          = resolveImport h fuel jsConfig r from packageJSON name st) as ->.
  { unfold resolveImport. destruct (_ || _); [done |].
    destruct (isNpmDependency _ _) as [[[] ?] ?];
      by rewrite ?(addTypes_kind _ r r2). }
  destruct (resolveImport _ _ _ _ _ _ _ _); [apply IH | done].
Qed.

Lemma computeSets_kind fuel r r2 imports from :
  Kind r2 = Kind r →
  computeSets h fuel r2 imports from = computeSets h fuel r imports from.
Proof.
  intros Hk. unfold computeSets.
  rewrite (resolveImports_kind _ _ r r2) by done.
  unfold jestDependencies. by rewrite Hk.
Qed.

End WalkEnds.

(** ** Writing the attributes *)

Section Rendering.
Import GoStrings.

Variable h : Host.
Hypothesis Hrange : range_complete h.

Lemma rangeKeys_nil (s : gset string) : rangeKeys h s = [] ↔ s = ∅.
Proof.
  destruct Hrange as [Hperm _]. split.
  - intros Hnil. pose proof (Hperm s) as Hs. rewrite Hnil in Hs.
    apply Permutation_nil_l in Hs. symmetry in Hs.
    by apply leibniz_equiv, elements_empty_inv.
  - intros ->. pose proof (Hperm ∅) as Hs. rewrite elements_empty in Hs.
    by apply Permutation_nil_r in Hs.
Qed.

Lemma rangeKeys_elem_of (s : gset string) x : x ∈ rangeKeys h s ↔ x ∈ s.
Proof. destruct Hrange as [Hperm _]. by rewrite (Hperm s), elem_of_elements. Qed.

Lemma rangeKeys_NoDup (s : gset string) : NoDup (rangeKeys h s).
Proof. destruct Hrange as [Hperm _]. rewrite (Hperm s). apply NoDup_elements. Qed.

Lemma setOrDelAttr_Kind r key value : Kind (setOrDelAttr r key value) = Kind r.
Proof. unfold setOrDelAttr. by destruct (0 <? _). Qed.

Lemma setOrDelAttr_same r key value :
  attrs (setOrDelAttr r key value) !! key
    = match value with [] => None | _ => Some value end.
Proof.
  unfold setOrDelAttr. destruct value as [|x value]; simpl.
  - apply lookup_delete_eq.
  - apply lookup_insert_eq.
Qed.

Lemma setOrDelAttr_other r key value key' :
  key ≠ key' →
  attrs (setOrDelAttr r key value) !! key' = attrs r !! key'.
Proof.
  intros Hne. unfold setOrDelAttr. destruct (0 <? _); simpl.
  - by apply lookup_insert_ne.
  - by apply lookup_delete_ne.
Qed.

Lemma rendered_set (s : gset string) :
  match rangeKeys h s with [] => None | _ => Some (rangeKeys h s) end
    = if bool_decide (s = ∅) then None else Some (rangeKeys h s).
Proof.
  case_bool_decide as Hs.
  - apply rangeKeys_nil in Hs. by rewrite Hs.
  - destruct (rangeKeys h s) eqn:E; [|done].
    by apply rangeKeys_nil in E.
Qed.

Lemma renderAttrs_deps r st :
  attrs (renderAttrs h r st) !! "deps"
    = if bool_decide (depSet st = ∅) then None
      else Some (rangeKeys h (depSet st)).
Proof.
  unfold renderAttrs. rewrite setOrDelAttr_other by done.
  by rewrite setOrDelAttr_same, rendered_set.
Qed.

Lemma renderAttrs_data r st :
  attrs (renderAttrs h r st) !! "data"
    = if bool_decide (dataSet st = ∅) then None
      else Some (rangeKeys h (dataSet st)).
Proof.
  unfold renderAttrs. by rewrite setOrDelAttr_same, rendered_set.
Qed.

Lemma renderAttrs_other r st key :
  key ≠ "deps" → key ≠ "data" →
  attrs (renderAttrs h r st) !! key = attrs r !! key.
Proof.
  intros Hdeps Hdata. unfold renderAttrs.
  by rewrite !setOrDelAttr_other.
Qed.

(** C6, as the code has it.  A pass whose manifest query fails is given
    up: the rule stays as it was.  On a pass whose manifest query
    neither fails nor finds the unit itself, and whose walks end, both
    attributes are replaced, wherever the unit lies: each one is set to
    the enumeration of the set computed in this pass, or removed when
    that set is empty; the computed sets do not depend on the attributes
    the rule had, and no other attribute changes.  The walks end
    whenever the climb meets a stop directory within the bound. *)
Theorem attributes_replaced fuel r imports from :
  (∀ e, err (tryResolve h "package.json" from) = Some e →
        Resolve h fuel r imports from = Some (r, [LogErr e]))
  ∧ (manifestFound h from →
     (∀ st,
        computeSets h fuel (mkRule (Kind r) ∅) imports from = Some st →
        ∃ r',
          Resolve h fuel r imports from = Some (r', logs st)
          ∧ Kind r' = Kind r
          ∧ attrs r' !! "deps"
            = (if bool_decide (depSet st = ∅) then None
               else Some (rangeKeys h (depSet st)))
          ∧ attrs r' !! "data"
            = (if bool_decide (dataSet st = ∅) then None
               else Some (rangeKeys h (dataSet st)))
          ∧ ∀ key, key ≠ "deps" → key ≠ "data" →
                   attrs r' !! key = attrs r !! key)
     ∧ (∀ d, stopsAt h from d = true → d < fuel →
             is_Some (computeSets h fuel (mkRule (Kind r) ∅) imports from))).
Proof.
  split.
  { intros e He. unfold Resolve. by rewrite He. }
  intros Hman. split.
  - intros st Hst. rewrite (computeSets_kind h fuel r) in Hst by done.
    exists (renderAttrs h r st).
    split. { by rewrite Resolve_computeSets, Hst. }
    split. { unfold renderAttrs. by rewrite !setOrDelAttr_Kind. }
    split; [apply renderAttrs_deps |].
    split; [apply renderAttrs_data |].
    apply renderAttrs_other.
  - intros d Hstop Hfuel. by apply (computeSets_ends h _ _ _ _ d).
Qed.

(** C3, as the code has it: on a resolution pass whose manifest query
    neither fails nor finds the unit itself, and whose walks end, each
    written attribute lists every member of its set exactly once, in the
    order in which the runtime enumerates the set; [Resolve] does not
    sort the list.  This holds wherever the unit lies; the walks end
    whenever the climb meets a stop directory within the bound. *)
Theorem rendered_lists_deduplicated fuel r imports from :
  manifestFound h from →
  (∀ st,
     computeSets h fuel r imports from = Some st →
     ∃ r',
       Resolve h fuel r imports from = Some (r', logs st)
       ∧ (∀ l, attrs r' !! "deps" = Some l →
               l = rangeKeys h (depSet st) ∧ NoDup l
               ∧ ∀ x, x ∈ l ↔ x ∈ depSet st)
       ∧ (∀ l, attrs r' !! "data" = Some l →
               l = rangeKeys h (dataSet st) ∧ NoDup l
               ∧ ∀ x, x ∈ l ↔ x ∈ dataSet st))
  ∧ (∀ d, stopsAt h from d = true → d < fuel →
          is_Some (computeSets h fuel r imports from)).
Proof.
  intros Hman. split.
  - intros st Hst. exists (renderAttrs h r st).
    split. { by rewrite Resolve_computeSets, Hst. }
    split; intros l.
    + rewrite renderAttrs_deps. case_bool_decide; [done |]. intros [= <-].
      split; [done |]. split; [apply rangeKeys_NoDup |].
      intros x. apply rangeKeys_elem_of.
    + rewrite renderAttrs_data. case_bool_decide; [done |]. intros [= <-].
      split; [done |]. split; [apply rangeKeys_NoDup |].
      intros x. apply rangeKeys_elem_of.
  - intros d Hstop Hfuel. by apply (computeSets_ends h _ _ _ _ d).
Qed.

End Rendering.

Section RenderingExamples.
Import GoStrings.

Lemma demoHost_range : range_complete demoHost.
Proof. by split. Qed.

Lemma reversedHost_range : range_complete reversedHost.
Proof. split; [|done]. intros s. apply reverse_Permutation. Qed.

Lemma attributes_replaced_witness :
  ∃ r',
    Resolve demoHost 0 staleRule {["typescript"]} rootFrom = Some (r', [])
    ∧ Kind r' = "ts_project"
    ∧ attrs r' !! "deps"
      = (if bool_decide (({["@npm//typescript"]} : gset string) = ∅) then None
         else Some (rangeKeys demoHost {["@npm//typescript"]}))
    ∧ attrs r' !! "data"
      = (if bool_decide ((∅ : gset string) = ∅) then None
         else Some (rangeKeys demoHost ∅))
    ∧ ∀ key, key ≠ "deps" → key ≠ "data" →
             attrs r' !! key = attrs staleRule !! key.
Proof.
  destruct (attributes_replaced demoHost demoHost_range 0 staleRule
              {["typescript"]} rootFrom) as [_ Hpass].
  destruct (Hpass (conj eq_refl eq_refl)) as [Hsets _].
  refine (Hsets (mkState {["@npm//typescript"]} ∅ []) _).
  by vm_compute.
Defined.

Example stale_rule_run :
  ∃ r', Resolve demoHost 5 staleRule {["lodash"]} demoFrom = Some (r', [])
        ∧ attrs r' !! "deps" = Some ["@npm//lodash"]
        ∧ attrs r' !! "data" = Some ["@npm//lodash"]
        ∧ attrs r' !! "srcs" = Some ["lib.ts"].
Proof. eexists. repeat split; by vm_compute. Qed.

(** C6 fails as stated: when the manifest query is ambiguous the pass
    returns with the rule as it was, so "deps" keeps its previous value
    although the unit imports "lodash". *)
Lemma stale_attribute_counterexample :
  ∃ msg,
    Resolve manifestHost 5 staleRule {["lodash"]} demoFrom
      = Some (staleRule, [LogErr msg])
    ∧ attrs staleRule !! "deps" = Some ["//stale:dep"]
    ∧ isNpmDependency "lodash" (jsConfigs manifestHost (Pkg demoFrom))
      = (true, "@npm//", false).
Proof. eexists. repeat split; by vm_compute. Qed.

Lemma rendered_lists_deduplicated_witness :
  let deps : gset string := {["@npm//lodash"; "@npm//typescript"]} in
  let data : gset string := {["@npm//lodash"]} in
  ∃ r',
    Resolve reversedHost 0 staleRule {["lodash"; "typescript"; "lodash/fp"]}
      rootFrom = Some (r', [])
    ∧ (∀ l, attrs r' !! "deps" = Some l →
            l = rangeKeys reversedHost deps ∧ NoDup l ∧ ∀ x, x ∈ l ↔ x ∈ deps)
    ∧ (∀ l, attrs r' !! "data" = Some l →
            l = rangeKeys reversedHost data ∧ NoDup l ∧ ∀ x, x ∈ l ↔ x ∈ data).
Proof.
  destruct (rendered_lists_deduplicated reversedHost reversedHost_range 0
              staleRule {["lodash"; "typescript"; "lodash/fp"]} rootFrom
              (conj eq_refl eq_refl)) as [Hsets _].
  refine (Hsets (mkState {["@npm//lodash"; "@npm//typescript"]}
                   {["@npm//lodash"]} []) _).
  by vm_compute.
Defined.

(** C3 fails as stated: two hosts that differ only in the order in
    which a set is enumerated write the same two dependencies in
    different orders, and one of the lists is not sorted. *)
Lemma unsorted_counterexample :
  let r := mkRule "js_library" ∅ in
  let imports : gset string := {["lodash"; "./other"]} in
  range_complete demoHost ∧ range_complete reversedHost
  ∧ ∃ r1 r2,
      Resolve demoHost 5 r imports demoFrom = Some (r1, [])
      ∧ Resolve reversedHost 5 r imports demoFrom = Some (r2, [])
      ∧ attrs r1 !! "deps" = Some [":other"; "@npm//lodash"]
      ∧ attrs r2 !! "deps" = Some ["@npm//lodash"; ":other"]
      ∧ ¬ Sorted String.le ["@npm//lodash"; ":other"].
Proof.
  split; [apply demoHost_range |]. split; [apply reversedHost_range |].
  eexists _, _. repeat split; try by vm_compute.
  intros Hs. apply Sorted_inv in Hs as [_ Hhd].
  apply HdRel_inv in Hhd. by vm_compute in Hhd.
Qed.

End RenderingExamples.

(** ** A walk that never ends: the root package *)

Section RootPackage.
Import GoStrings.

Variable h : Host.

Lemma parentsAt_front n : parentsAt (S n) = "../" +:+ parentsAt n.
Proof.
  induction n as [|n IH]; [done |].
  change (parentsAt (S (S n))) with (parentsAt (S n) +:+ "../").
  rewrite IH at 1. by rewrite append_assoc.
Qed.

Lemma Split_parent q : Split ("../" +:+ q) GoPath.slash = ".." :: Split q GoPath.slash.
Proof.
  change ("../" +:+ q) with (String "." (String "." (String "/" q))).
  cbn. by destruct (Split q GoPath.slash).
Qed.

Lemma Split_parentsAt n :
  Split (parentsAt n) GoPath.slash = repeat ".." n ++ [""].
Proof.
  induction n as [|n IH]; [done |].
  by rewrite parentsAt_front, Split_parent, IH.
Qed.

Lemma cleanStep_parents n : ∀ k,
  fold_left (GoPath.cleanStep false) (repeat ".." n ++ [""]) (repeat ".." k)
    = repeat ".." (n + k).
Proof.
  induction n as [|n IH]; intros k; [done |].
  cbn [repeat app fold_left].
  replace (GoPath.cleanStep false (repeat ".." k) "..")
    with (repeat ".." (S k)) by (by destruct k).
  rewrite IH. f_equal. lia.
Qed.

Lemma reverse_repeat {A} (x : A) n : rev (repeat x n) = repeat x n.
Proof.
  induction n as [|n IH]; [done |]. cbn [repeat rev]. rewrite IH.
  clear IH. induction n as [|n IH]; [done |]. cbn. by rewrite IH.
Qed.

Lemma Join_parents m :
  ∃ t, Join (repeat ".." (S m)) "/" = String "." (String "." t).
Proof. destruct m; cbn; eauto. Qed.

(** From the root package the walk only climbs: [localDir] is empty in
    the first iteration and begins with ".." in every later one. *)
Lemma localDir_root from n :
  Pkg from = "" →
  localDirAt from n = "" ∨ ∃ t, localDirAt from n = String "." (String "." t).
Proof.
  intros Hpkg. unfold localDirAt. rewrite Hpkg.
  destruct n as [|n]; [by left |]. right.
  rewrite parentsAt_front.
  change (GoPath.Join [""; "../" +:+ parentsAt n])
    with (GoPath.Clean ("../" +:+ parentsAt n)).
  unfold GoPath.Clean.
  change (String.eqb ("../" +:+ parentsAt n) "") with false.
  change (HasPrefix ("../" +:+ parentsAt n) "/") with false. cbn match.
  rewrite <- parentsAt_front, Split_parentsAt.
  pose proof (cleanStep_parents (S n) 0) as Hfold.
  change (repeat ".." 0) with (@nil string) in Hfold.
  rewrite Hfold, reverse_repeat.
  destruct (Join_parents (S n + 0 - 1)) as [t Ht].
  replace (S (S n + 0 - 1)) with (S n + 0) in Ht by lia.
  rewrite Ht. eauto.
Qed.

Lemma stopsAt_root from n :
  Pkg from = "" → rootOutOfReach (jsConfigs h "") → stopsAt h from n = false.
Proof.
  intros Hpkg [Hne Hup]. unfold stopsAt. rewrite Hpkg.
  destruct (localDir_root from n Hpkg) as [->|[t ->]].
  - by apply String.eqb_neq in Hne as ->.
  - rewrite orb_false_r. apply String.eqb_neq. intros Heq.
    by rewrite Heq in Hup.
Qed.

Lemma probeExtensions_nothing jsConfig from target exts : ∀ tries st,
  (∀ t, tryResolve h t from = noResult) →
  ∃ tries', probeExtensions h jsConfig from target exts tries st = NotFound tries'.
Proof.
  induction exts as [|ext exts IH]; intros tries st Hnone; [by eexists |].
  cbn [probeExtensions]. rewrite Hnone. cbn. by apply IH.
Qed.

Lemma walkParents_root from fuel : ∀ n name tries st,
  Pkg from = "" → rootOutOfReach (jsConfigs h "") →
  (∀ t, tryResolve h t from = noResult) →
  walkParents h fuel name (parentsAt n) tries st from = None.
Proof.
  induction fuel as [|fuel IH]; intros n name tries st Hpkg Hroot Hnone;
    [done |].
  cbn [walkParents].
  edestruct probeExtensions_nothing as [tries' ->]; [done |].
  pose proof (stopsAt_root from n Hpkg Hroot) as Hstop.
  unfold stopsAt, localDirAt in Hstop. rewrite Hstop.
  by apply (IH (S n)).
Qed.

(** C9 fails on the code: for a unit of the root package, whose
    package path is empty, [localDir] is "" and then "..", "../..",
    and so on: never ".", and never the configured root when that is,
    say, ".".  When nothing answers the probes the walk does not end,
    whatever bound is put on its iterations, and neither does
    [Resolve]. *)
Theorem root_package_walk_diverges from name imports r :
  Pkg from = "" → rootOutOfReach (jsConfigs h "") →
  (∀ t, tryResolve h t from = noResult) →
  isManifestName name = false →
  translateAlias (jsConfigs h "") name = name →
  (isNpmDependency name (jsConfigs h "")).1.1 = false →
  HasPrefix name "node:" = false →
  name ∉ BUILTINS →
  rangeKeys h imports = [name] →
  ∀ fuel,
    resolveWalkParents h fuel name (mkState ∅ ∅ []) from = None
    ∧ Resolve h fuel r imports from = None.
Proof.
  intros Hpkg Hroot Hnone Hman Hal Hnpm Hnode Hbi Hkeys fuel.
  assert (Hwalk : ∀ st, resolveWalkParents h fuel name st from = None).
  { intros st. by apply (walkParents_root from fuel 0). }
  split; [done |].
  unfold Resolve. rewrite Hnone, Hkeys, Hpkg. cbn.
  unfold resolveImport. unfold isManifestName in Hman. rewrite Hman, Hal.
  destruct (isNpmDependency name _) as [[isNpm l] dev].
  simpl in Hnpm. subst isNpm. rewrite Hnode.
  rewrite bool_decide_eq_false_2 by done.
  rewrite Hnone. cbn. by rewrite Hwalk.
Qed.

End RootPackage.

(** ** No edge to the importing unit itself *)

Section OwnLabel.
Import GoStrings.

Variable h : Host.

Lemma ownLabel_eq from : ownLabel from = ":" +:+ Name from.
Proof.
  unfold ownLabel, label.Rel, label.String.
  destruct (Relative from) eqn:Hrel; cbn; [by rewrite Hrel |].
  by rewrite !String.eqb_refl.
Qed.

Lemma headNotColon_app a b :
  headNotColon a = true → headNotColon (a +:+ b) = true.
Proof. by destruct a. Qed.

Lemma headNotColon_own from s : headNotColon s = true → s ≠ ownLabel from.
Proof. rewrite ownLabel_eq. by intros Hs ->. Qed.

Lemma String_absolute l : Relative l = false → headNotColon (label.String l) = true.
Proof.
  intros Hrel. unfold label.String. rewrite Hrel. cbv zeta.
  assert (Hrepo : headNotColon
            ((if negb (String.eqb (Repo l) "") && negb (String.eqb (Repo l) "@")
              then "@" +:+ Repo l else Repo l) +:+ "//") = true).
  { destruct (String.eqb_spec (Repo l) "") as [->|_]; [done |].
    destruct (String.eqb_spec (Repo l) "@") as [->|_]; done. }
  destruct (String.eqb _ (Name l));
    rewrite <- (append_assoc _ "//"); by apply headNotColon_app.
Qed.

Lemma Equal_true a b : label.Equal a b = true ↔ a = b.
Proof.
  unfold label.Equal. rewrite !andb_true_iff, !String.eqb_eq, Bool.eqb_true_iff.
  destruct a, b; simpl. split; [by intros [[[-> ->] ->] ->] | by intros [= -> -> -> ->]].
Qed.

(** An absolute label that does not name the importing unit is not
    rendered as the unit's own label. *)
Lemma Rel_not_own l from :
  Relative l = false →
  (Repo l = Repo from → Pkg l = Pkg from → Name l ≠ Name from) →
  label.String (label.Rel l (Repo from) (Pkg from)) ≠ ownLabel from.
Proof.
  intros Hrel Hdiff. unfold label.Rel. rewrite Hrel. cbn [orb].
  destruct (String.eqb_spec (Repo l) (Repo from)) as [Hrepo|_]; cbn [negb].
  - destruct (String.eqb_spec (Pkg l) (Pkg from)) as [Hpkg|_].
    + rewrite ownLabel_eq. cbn. intros [= Hname]. by apply Hdiff.
    + by apply headNotColon_own, String_absolute.
  - by apply headNotColon_own, String_absolute.
Qed.

Lemma tryResolveIndex_not_own target from :
  absoluteLabels h → Relative from = false →
  rlabel (tryResolveIndex h target from) ≠ label.NoLabel →
  label.String (label.Rel (rlabel (tryResolveIndex h target from))
                  (Repo from) (Pkg from)) ≠ ownLabel from.
Proof.
  intros [_ Hix] Hfrom. unfold tryResolveIndex.
  destruct (FindRulesByImportWithConfig _ _ _) as [|m0 [|m1 more]] eqn:E.
  - destruct (os_Stat _ _) as [fi|]; [destruct (negb _) |]; done.
  - destruct (IsSelfImport m0 from) eqn:Hself; [done |]. intros _. cbn.
    apply Rel_not_own.
    + apply (Hix (mkImportSpec (languageName h) target) (languageName h)).
      rewrite E. apply list_elem_of_here.
    + intros Hrepo Hpkg Hname.
      unfold IsSelfImport in Hself. apply orb_false_iff in Hself as [Hself _].
      assert (Hrel : Relative (Label_ m0) = false).
      { apply (Hix (mkImportSpec (languageName h) target) (languageName h)).
        rewrite E. apply list_elem_of_here. }
      assert (from = Label_ m0) as Heq.
      { destruct from, (Label_ m0); simpl in *. congruence. }
      apply Equal_true in Heq. congruence.
  - done.
Qed.

Lemma tryResolve_not_own target from :
  absoluteLabels h → Relative from = false →
  rlabel (tryResolve h target from) ≠ label.NoLabel →
  label.String (label.Rel (rlabel (tryResolve h target from))
                  (Repo from) (Pkg from)) ≠ ownLabel from.
Proof.
  intros Habs Hfrom.
  destruct (FindRuleWithOverride h (specOf h target) (languageName h))
    as [o|] eqn:Hov.
  - rewrite (tryResolve_override _ _ _ _ Hov).
    destruct (label.Equal _ from) eqn:Heq;
      [by apply tryResolveIndex_not_own |].
    intros _. cbn [rlabel].
    assert (Ho : Relative o = false) by (by eapply (proj1 Habs)).
    assert (Ho1 : Relative (defaultRepo o from) = false).
    { unfold defaultRepo. by destruct (String.eqb _ _). }
    apply Rel_not_own.
    + unfold shortenRepo. by destruct (String.eqb _ _).
    + intros Hrepo Hpkg Hname.
      assert (defaultRepo o from = from) as Hsame; [|apply Equal_true in Hsame; congruence].
      unfold shortenRepo in Hrepo, Hpkg, Hname.
      destruct (String.eqb_spec (Repo (defaultRepo o from)) (Repo from)) as [Hr|Hr];
        [|done].
      destruct (defaultRepo o from), from; simpl in *. congruence.
  - rewrite tryResolve_no_override by done. by apply tryResolveIndex_not_own.
Qed.

End OwnLabel.

Section OwnLabelInvariant.
Import GoStrings.

Variable h : Host.
Variable from : Label.

Hypothesis Habs : absoluteLabels h.
Hypothesis Hfrom : Relative from = false.

Lemma not_elem_of_add (x y : string) (s : gset string) :
  x ≠ y → y ∉ s → y ∉ {[x]} ∪ s.
Proof.
  intros Hne Hs. rewrite elem_of_union, elem_of_singleton.
  by intros [->|?].
Qed.

Lemma selfFree_addDep x st : x ≠ ownLabel from → selfFree from st → selfFree from (addDep x st).
Proof. intros Hx [Hdep Hdata]. split; [by apply not_elem_of_add | done]. Qed.

Lemma selfFree_addData x st : x ≠ ownLabel from → selfFree from st → selfFree from (addData x st).
Proof. intros Hx [Hdep Hdata]. split; [done | by apply not_elem_of_add]. Qed.

Lemma selfFree_logPrint es st : selfFree from st → selfFree from (logPrint es st).
Proof. by intros [Hdep Hdata]. Qed.

Create HintDb selfFree.
Hint Resolve selfFree_addDep selfFree_addData selfFree_logPrint : selfFree.

Lemma isNpmDependency_label jsConfig imp npmLabel devDep :
  npmLabelsAbsolute jsConfig →
  isNpmDependency imp jsConfig = (true, npmLabel, devDep) →
  headNotColon npmLabel = true.
Proof.
  intros (Hdep & Hdev & Hdef). unfold isNpmDependency.
  destruct (hasPrefix _ _); [done |].
  destruct (Dependencies _ !! _) as [l|] eqn:E1; [intros [= <- _]; eauto |].
  destruct (DevDependencies _ !! _) as [l|] eqn:E2; [intros [= <- _]; eauto |].
  destruct (HasPrefix imp "@types"); [done |].
  destruct (HasPrefix imp "@"); [by intros [= <- _] | done].
Qed.

Lemma selfFree_addTypes jsConfig r name st :
  npmLabelsAbsolute jsConfig → selfFree from st → selfFree from (addTypes jsConfig r name st).
Proof.
  intros Hnpm Hst. unfold addTypes. destruct (_ && _); [|done].
  destruct (isNpmDependency _ _) as [[[] l] d] eqn:E; [|done].
  apply selfFree_addDep; [|done].
  apply headNotColon_own, headNotColon_app. by eapply isNpmDependency_label.
Qed.

Lemma selfFree_probeExtensions jsConfig target exts : ∀ tries st st',
  selfFree from st →
  probeExtensions h jsConfig from target exts tries st = Returned st' →
  selfFree from st'.
Proof.
  induction exts as [|ext exts IH]; intros tries st st' Hst; [done |].
  cbn [probeExtensions].
  destruct (err _) as [e|]; [intros [= <-]; auto with selfFree |].
  destruct (selfImport _); [by intros [= <-] |].
  case_bool_decide as Hlbl; cbn [negb].
  - destruct (negb (String.eqb _ _)); [|by apply IH].
    intros [= <-]. apply selfFree_addData; [|done].
    by apply headNotColon_own.
  - pose proof (tryResolve_not_own h _ from Habs Hfrom Hlbl) as Hne.
    destruct (negb (isWebAsset _ _ _)); intros [= <-]; auto with selfFree.
Qed.

Lemma selfFree_walkParents fuel : ∀ name parents tries st st',
  selfFree from st →
  walkParents h fuel name parents tries st from = Some st' →
  selfFree from st'.
Proof.
  induction fuel as [|fuel IH]; intros name parents tries st st' Hst; [done |].
  cbn [walkParents].
  destruct (probeExtensions _ _ _ _ _ _ _) as [st1|tries1] eqn:E.
  - intros [= <-]. by eapply selfFree_probeExtensions.
  - destruct (_ || _); [intros [= <-]; auto with selfFree |].
    by apply IH.
Qed.

Lemma selfFree_resolveImport fuel jsConfig r packageJSON name st st' :
  npmLabelsAbsolute jsConfig →
  packageJSON ≠ ownLabel from →
  selfFree from st →
  resolveImport h fuel jsConfig r from packageJSON name st = Some st' →
  selfFree from st'.
Proof.
  intros Hnpm Hpj Hst. unfold resolveImport.
  destruct (_ || _); [intros [= <-]; auto with selfFree |].
  destruct (isNpmDependency _ _) as [[[] l] d] eqn:E.
  - intros [= <-].
    assert (Hl : l +:+ npmPackageName (translateAlias jsConfig name)
                 ≠ ownLabel from).
    { apply headNotColon_own, headNotColon_app.
      by eapply isNpmDependency_label. }
    apply selfFree_addTypes; [done |].
    destruct d; cbn [negb]; auto with selfFree.
  - destruct (HasPrefix _ _);
      [intros [= <-]; by apply selfFree_addTypes |].
    destruct (bool_decide (_ ∈ BUILTINS));
      [intros [= <-]; by apply selfFree_addTypes |].
    destruct (bool_decide (err _ = None)); cbn [andb];
      [|by apply selfFree_walkParents].
    destruct (selfImport _); cbn [andb negb];
      [by apply selfFree_walkParents |].
    case_bool_decide as Hlbl; cbn [negb];
      [by apply selfFree_walkParents |].
    intros [= <-]. apply selfFree_addDep; [|done].
    by apply tryResolve_not_own.
Qed.

Lemma selfFree_resolveImports fuel jsConfig r packageJSON names : ∀ st st',
  npmLabelsAbsolute jsConfig →
  packageJSON ≠ ownLabel from →
  selfFree from st →
  resolveImports h fuel jsConfig r from packageJSON names st = Some st' →
  selfFree from st'.
Proof.
  induction names as [|name names IH]; intros st st' Hnpm Hpj Hst.
  - by intros [= <-].
  - cbn [resolveImports].
    destruct (resolveImport _ _ _ _ _ _ _ _) as [st1|] eqn:E; [|done].
    apply IH; [done.. |]. by eapply selfFree_resolveImport.
Qed.

Lemma selfFree_jestDependency st name npmLabel :
  headNotColon npmLabel = true → selfFree from st →
  selfFree from (jestDependency st (name, npmLabel)).
Proof.
  intros Hl Hst. unfold jestDependency.
  assert (Hne : npmLabel +:+ name ≠ ownLabel from)
    by (by apply headNotColon_own, headNotColon_app).
  destruct (_ || _); [done |].
  destruct (HasPrefix name "@types/jest"), (HasPrefix name "jest");
    auto with selfFree.
Qed.

Lemma selfFree_fold_jest entries : ∀ st,
  Forall (λ e, headNotColon e.2 = true) entries → selfFree from st →
  selfFree from (fold_left jestDependency entries st).
Proof.
  induction entries as [|[name l] entries IH]; intros st Hall Hst; [done |].
  apply Forall_cons in Hall as [Hl Hall]. cbn [fold_left].
  apply IH; [done |]. by apply selfFree_jestDependency.
Qed.

Lemma selfFree_jestDependencies jsConfig r st :
  range_complete h → npmLabelsAbsolute jsConfig →
  selfFree from st → selfFree from (jestDependencies h jsConfig r st).
Proof.
  intros [_ Htable] (_ & Hdev & _) Hst. unfold jestDependencies.
  destruct (String.eqb _ _); [|done].
  apply selfFree_addData; [by apply headNotColon_own |].
  apply selfFree_fold_jest; [|done].
  apply Forall_forall. intros [name l] Hin.
  rewrite (Htable _) in Hin. apply elem_of_map_to_list in Hin. eauto.
Qed.

Lemma packageJSON_not_own (rr : resolveResult) :
  (if negb (bool_decide (rlabel rr = label.NoLabel))
   then label.String (label.Abs (rlabel rr) (Repo from) (Pkg from))
   else "//:package") ≠ ownLabel from.
Proof.
  destruct (negb _); [|by apply headNotColon_own].
  apply headNotColon_own, String_absolute.
  unfold label.Abs. by destruct (Relative (rlabel rr)) eqn:E.
Qed.

Lemma selfFree_computeSets fuel r imports st :
  range_complete h → npmLabelsAbsolute (jsConfigs h (Pkg from)) →
  computeSets h fuel r imports from = Some st → selfFree from st.
Proof.
  intros Hrange Hnpm. unfold computeSets.
  destruct (resolveImports _ _ _ _ _ _ _ _) as [st0|] eqn:E; [|done].
  intros [= <-]. apply selfFree_jestDependencies; [done.. |].
  eapply selfFree_resolveImports; [done | apply packageJSON_not_own | | exact E].
  split; apply not_elem_of_empty.
Qed.

End OwnLabelInvariant.

Section OwnLabelTheorem.
Import GoStrings.

Variable h : Host.

Lemma tryResolve_self_no_label target from :
  selfImport (tryResolve h target from) = true →
  rlabel (tryResolve h target from) = label.NoLabel.
Proof.
  assert (Hix : selfImport (tryResolveIndex h target from) = true →
                rlabel (tryResolveIndex h target from) = label.NoLabel).
  { unfold tryResolveIndex.
    destruct (FindRulesByImportWithConfig _ _ _) as [|m0 [|m1 more]]; [|
      by destruct (IsSelfImport m0 from) | done].
    destruct (os_Stat _ _) as [fi|]; [by destruct (negb _) | done]. }
  unfold tryResolve. destruct (FindRuleWithOverride _ _ _) as [o|]; [|done].
  by destruct (negb _).
Qed.


End OwnLabelTheorem.

Section OwnLabelExamples.
Import GoStrings.

Lemma demoHost_absolute : absoluteLabels demoHost.
Proof.
  split; [done |]. intros spec lang m. cbn. unfold demoIndex.
  repeat destruct (String.eqb _ _); intros Hin;
    repeat (apply elem_of_cons in Hin as [->|Hin]; [done |]);
    by apply elem_of_nil in Hin.
Qed.

Lemma demoConfig_npm : npmLabelsAbsolute demoConfig.
Proof.
  assert (Hdep : map_Forall (λ (_ : string) l, headNotColon l = true)
                   (Dependencies (NpmDependencies demoConfig)))
    by (refine (bool_decide_unpack _ _); by vm_compute).
  assert (Hdev : map_Forall (λ (_ : string) l, headNotColon l = true)
                   (DevDependencies (NpmDependencies demoConfig)))
    by (refine (bool_decide_unpack _ _); by vm_compute).
  split; [exact Hdep |]. split; [exact Hdev | done].
Qed.

Lemma emptyHost_range : range_complete emptyHost.
Proof. by split. Qed.

Lemma emptyHost_absolute : absoluteLabels emptyHost.
Proof. split; [done |]. intros spec lang m Hin. by apply elem_of_nil in Hin. Qed.

Lemma emptyConfig_npm : npmLabelsAbsolute emptyConfig.
Proof. split; [done |]. split; done. Qed.



End OwnLabelExamples.

Section RootPackageExamples.
Import GoStrings.

Lemma root_package_walk_diverges_witness :
  resolveWalkParents emptyHost 1000 "./missing" (mkState ∅ ∅ []) rootFrom = None
  ∧ Resolve emptyHost 1000 (mkRule "ts_project" ∅) {["./missing"]} rootFrom = None.
Proof.
  apply (root_package_walk_diverges emptyHost rootFrom "./missing"
           {["./missing"]} (mkRule "ts_project" ∅)).
  - reflexivity.
  - split; [discriminate | reflexivity].
  - intros t. reflexivity.
  - reflexivity.
  - reflexivity.
  - reflexivity.
  - reflexivity.
  - refine (proj1 (bool_decide_eq_false _) _). vm_compute. reflexivity.
  - vm_compute. reflexivity.
Defined.

End RootPackageExamples.

(** ** The walk from a package below the root ends within its depth *)

Section PlainPackage.
Import GoStrings.

Variable h : Host.

Lemma Split_app_slash a b :
  Contains a "/" = false →
  Split (a +:+ "/" +:+ b) GoPath.slash = a :: Split b GoPath.slash.
Proof.
  induction a as [|ch a IH]; intros Ha; [done |].
  apply Contains_slash_cons in Ha as [Hch Ha].
  rewrite append_cons. cbn [Split]. unfold GoPath.slash at 1.
  by rewrite Hch, (IH Ha).
Qed.

Lemma Split_Join_app comps b :
  comps ≠ [] → Forall plainElement comps →
  Split (Join comps "/" +:+ "/" +:+ b) GoPath.slash
    = comps ++ Split b GoPath.slash.
Proof.
  induction comps as [|x comps IH]; intros Hne Hall; [done |].
  apply Forall_cons in Hall as [(_ & _ & _ & Hx) Hall].
  destruct comps as [|y comps].
  - by apply Split_app_slash.
  - change (Join (x :: y :: comps) "/") with (x +:+ "/" +:+ Join (y :: comps) "/").
    rewrite !append_assoc, Split_app_slash by done.
    by rewrite IH.
Qed.

Lemma cleanStep_plain rooted e stack :
  plainElement e → GoPath.cleanStep rooted stack e = e :: stack.
Proof.
  intros (H1 & H2 & H3 & _). unfold GoPath.cleanStep.
  apply String.eqb_neq in H1, H2, H3. by rewrite H1, H2, H3.
Qed.

Lemma fold_cleanStep_plain rooted comps : ∀ stack,
  Forall plainElement comps →
  fold_left (GoPath.cleanStep rooted) comps stack = rev comps ++ stack.
Proof.
  induction comps as [|x comps IH]; intros stack Hall; [done |].
  apply Forall_cons in Hall as [Hx Hall]. cbn [fold_left rev].
  rewrite cleanStep_plain, IH by done. by rewrite <- app_assoc.
Qed.

Lemma fold_cleanStep_pop rooted stack :
  Forall plainElement stack →
  fold_left (GoPath.cleanStep rooted) (repeat ".." (length stack)) stack = [].
Proof.
  induction stack as [|x stack IH]; intros Hall; [done |].
  apply Forall_cons in Hall as [(_ & _ & Hx & _) Hall].
  cbn [length repeat fold_left]. unfold GoPath.cleanStep at 2. cbn.
  apply String.eqb_neq in Hx. rewrite Hx. by apply IH.
Qed.

Lemma Join_plain_head x comps :
  plainElement x →
  ∃ ch t, Join (x :: comps) "/" = String ch t ∧ Ascii.eqb ch "/" = false.
Proof.
  intros (Hne & _ & _ & Hns). destruct x as [|ch x]; [done |].
  apply Contains_slash_cons in Hns as [Hch _].
  destruct comps; cbn [Join]; rewrite ?append_cons; eauto.
Qed.

Lemma Join_pair a b :
  a ≠ "" → b ≠ "" → GoPath.Join [a; b] = GoPath.Clean (a +:+ "/" +:+ b).
Proof. intros Ha Hb. by destruct a, b. Qed.

Lemma Clean_relative p ch t :
  p = String ch t → Ascii.eqb ch "/" = false →
  GoPath.Clean p =
    let out := Join (rev (fold_left (GoPath.cleanStep false)
                            (Split p GoPath.slash) [])) "/" in
    if String.eqb out "" then "." else out.
Proof.
  intros Hp Hch. unfold GoPath.Clean.
  assert (String.eqb p "" = false) as -> by (by rewrite Hp).
  assert (HasPrefix p "/" = false) as ->; [|done].
  rewrite Hp. unfold HasPrefix. cbn [stripPrefix].
  by rewrite (Ascii.eqb_sym "/" ch), Hch.
Qed.

(** After as many steps up as the package path has elements, the walk
    is at ".". *)
Lemma localDirAt_depth from comps :
  Pkg from = Join comps "/" → comps ≠ [] → Forall plainElement comps →
  localDirAt from (length comps) = ".".
Proof.
  intros Hpkg Hne Hall. unfold localDirAt. rewrite Hpkg.
  destruct comps as [|x comps]; [done |].
  pose proof Hall as Hall'. apply Forall_cons in Hall' as [Hx _].
  destruct (Join_plain_head x comps Hx) as (ch & t & Hjoin & Hch).
  set (n := length (x :: comps)).
  rewrite Join_pair.
  - rewrite (Clean_relative _ ch (t +:+ "/" +:+ parentsAt n));
      [|by rewrite Hjoin | done].
    rewrite Split_Join_app, Split_parentsAt by done.
    rewrite fold_left_app.
    rewrite (fold_cleanStep_plain false (x :: comps) []), app_nil_r by done.
    rewrite fold_left_app. unfold n.
    rewrite <- (length_rev (x :: comps)).
    rewrite fold_cleanStep_pop; [done |].
    by apply Forall_rev.
  - by rewrite Hjoin.
  - unfold n. cbn [length]. by rewrite parentsAt_front.
Qed.

Lemma plain_package_stops from comps :
  Pkg from = Join comps "/" → comps ≠ [] → Forall plainElement comps →
  stopsAt h from (length comps) = true.
Proof.
  intros Hpkg Hne Hall. unfold stopsAt.
  rewrite (localDirAt_depth from comps) by done. apply orb_true_r.
Qed.

(** For a unit whose package path is made of ordinary elements, the
    walk over the parent directories ends within one iteration more
    than the path has elements. *)
Theorem plain_package_walk_ends from comps fuel name st :
  Pkg from = Join comps "/" → comps ≠ [] → Forall plainElement comps →
  length comps < fuel →
  is_Some (resolveWalkParents h fuel name st from).
Proof.
  intros Hpkg Hne Hall Hfuel.
  apply (resolveWalkParents_ends h from (length comps)); [|done].
  by apply plain_package_stops.
Qed.

End PlainPackage.

Example plain_package_run :
  is_Some (resolveWalkParents demoHost 3 "./missing" (mkState ∅ ∅ []) demoFrom).
Proof.
  apply (plain_package_walk_ends demoHost demoFrom ["pkg"; "sub"]);
    [reflexivity | discriminate | | simpl; lia].
  repeat constructor; discriminate.
Qed.

(** * Further properties of the resolver *)

(** ** Classification, package names and type companions *)

Section ClassificationMore.
Import GoStrings.

Lemma Split_no_slash a :
  Contains a "/" = false → Split a "/" = [a].
Proof.
  induction a as [|ch a IH]; intros Ha; [done |].
  apply Contains_slash_cons in Ha as [Hch Ha].
  cbn [Split]. by rewrite Hch, (IH Ha).
Qed.

Lemma TrimPrefix_app p r : TrimPrefix (p +:+ r) p = r.
Proof.
  unfold TrimPrefix.
  by rewrite (proj2 (stripPrefix_Some (p +:+ r) p r) eq_refl).
Qed.

Lemma HasPrefix_false_TrimPrefix s p :
  HasPrefix s p = false → TrimPrefix s p = s.
Proof. unfold HasPrefix, TrimPrefix. by destruct (stripPrefix s p). Qed.

(** The verdict of [isNpmDependency], read backwards.  An accepted
    identifier starts with none of the exempt prefixes; its label is the
    entry of its package root in the dependency table, or, only when
    that table has no entry, the entry in the dev-dependency table, or,
    only when neither table has one, the default label, and then the
    identifier starts with "@" but not with "@types".  It is reported as
    a dev dependency in the second case only.  A rejected identifier
    comes with the empty label. *)
Theorem isNpmDependency_inversion imp jsConfig isNpm npmLabel devDep :
  isNpmDependency imp jsConfig = (isNpm, npmLabel, devDep) →
  let tables := NpmDependencies jsConfig in
  if isNpm then
    hasPrefix npmExemptPrefixes imp = false
    ∧ ((Dependencies tables !! packageRoot imp = Some npmLabel ∧ devDep = false)
       ∨ (Dependencies tables !! packageRoot imp = None
          ∧ DevDependencies tables !! packageRoot imp = Some npmLabel
          ∧ devDep = true)
       ∨ (Dependencies tables !! packageRoot imp = None
          ∧ DevDependencies tables !! packageRoot imp = None
          ∧ HasPrefix imp "@" = true ∧ HasPrefix imp "@types" = false
          ∧ npmLabel = DefaultNpmLabel jsConfig ∧ devDep = false))
  else npmLabel = "" ∧ devDep = false.
Proof.
  cbv zeta. unfold isNpmDependency.
  destruct (hasPrefix npmExemptPrefixes imp) eqn:Hex; [by intros [= <- <- <-] |].
  destruct (Dependencies _ !! _) as [l|] eqn:Hdep.
  { intros [= <- <- <-]. split; [done |]. by left. }
  destruct (DevDependencies _ !! _) as [l|] eqn:Hdev.
  { intros [= <- <- <-]. split; [done |]. right. by left. }
  destruct (HasPrefix imp "@types") eqn:Hty; [by intros [= <- <- <-] |].
  destruct (HasPrefix imp "@") eqn:Hat; intros [= <- <- <-]; [|done].
  split; [done |]. right. by right.
Qed.

Lemma isNpmDependency_inversion_witness :
  hasPrefix npmExemptPrefixes "jest" = false
  ∧ Dependencies demoTables !! packageRoot "jest" = None.
Proof.
  destruct (isNpmDependency_inversion "jest" demoConfig true "@npm//" true
              eq_refl) as [Hex [[_ [=]]|[(Hdep & _ & _)|(Hdep & _)]]];
    exact (conj Hex Hdep).
Defined.

Lemma npmPackageName_no_slash name :
  Contains name "/" = false → npmPackageName name = name.
Proof.
  intros Hn. unfold npmPackageName. rewrite (Split_no_slash _ Hn). cbn.
  by rewrite andb_false_r.
Qed.

(** The name under which an accepted identifier is rendered behind its
    label: the text before the first slash, and for an identifier that
    starts with "@" the text before the second slash; the whole
    identifier when it has no such slash. *)
Theorem npmPackageName_spec name :
  (Contains name "/" = false → npmPackageName name = name)
  ∧ (∀ a b, name = a +:+ "/" +:+ b → Contains a "/" = false →
            HasPrefix a "@" = false → npmPackageName name = a)
  ∧ (∀ a b, name = a +:+ "/" +:+ b → Contains a "/" = false →
            HasPrefix a "@" = true → Contains b "/" = false →
            npmPackageName name = name)
  ∧ (∀ a b c, name = a +:+ "/" +:+ b +:+ "/" +:+ c → Contains a "/" = false →
              HasPrefix a "@" = true → Contains b "/" = false →
              npmPackageName name = a +:+ "/" +:+ b).
Proof.
  split; [apply npmPackageName_no_slash |].
  unfold npmPackageName. repeat split.
  - intros a b -> Ha Hat.
    change (Split (a +:+ "/" +:+ b) "/")
      with (Split (a +:+ "/" +:+ b) GoPath.slash).
    rewrite Split_app_slash by done. cbn [hd]. by rewrite Hat.
  - intros a b -> Ha Hat Hb.
    change (Split (a +:+ "/" +:+ b) "/")
      with (Split (a +:+ "/" +:+ b) GoPath.slash).
    rewrite Split_app_slash by done. unfold GoPath.slash.
    rewrite (Split_no_slash _ Hb). cbn. by rewrite Hat.
  - intros a b c -> Ha Hat Hb.
    change (Split (a +:+ "/" +:+ b +:+ "/" +:+ c) "/")
      with (Split (a +:+ "/" +:+ b +:+ "/" +:+ c) GoPath.slash).
    rewrite !Split_app_slash by done.
    destruct (Split c GoPath.slash); cbn; by rewrite Hat.
Qed.

Lemma types_packageRoot name :
  Contains name "/" = false →
  packageRoot ("@types/" +:+ name) = "@types/" +:+ name.
Proof.
  intros Hn. unfold packageRoot.
  rewrite (scan_to_slash _ "" "@types" name) by done.
  rewrite append_nil_l, String.eqb_refl. by apply scan_no_slash.
Qed.

(** The companion type package of a name without a slash: a ts_project
    with LookupTypes on gets the edge label +:+ "@types/" +:+ name when
    "@types/name" is a key of the dependency table, or else of the
    dev-dependency table; when it is in neither, or the rule is of
    another kind, or LookupTypes is off, the state is left as it was.
    The default label is never used, and the data set never changes. *)
Theorem addTypes_spec jsConfig r name st :
  Contains name "/" = false →
  let tables := NpmDependencies jsConfig in
  addTypes jsConfig r name st =
    (if LookupTypes jsConfig && String.eqb (Kind r) "ts_project" then
       match Dependencies tables !! ("@types/" +:+ name) with
       | Some l => addDep (l +:+ "@types/" +:+ name) st
       | None =>
           match DevDependencies tables !! ("@types/" +:+ name) with
           | Some l => addDep (l +:+ "@types/" +:+ name) st
           | None => st
           end
       end
     else st)
  ∧ dataSet (addTypes jsConfig r name st) = dataSet st.
Proof.
  intros Hn tables. split; [|apply addTypes_dataSet].
  unfold addTypes. destruct (_ && _); [|done].
  unfold isNpmDependency. rewrite (types_packageRoot _ Hn).
  change (hasPrefix npmExemptPrefixes ("@types/" +:+ name)) with false.
  fold tables. destruct (Dependencies tables !! _); [done |].
  destruct (DevDependencies tables !! _); [done |].
  by change (HasPrefix ("@types/" +:+ name) "@types") with true.
Qed.

Lemma addTypes_spec_witness :
  addTypes demoConfig (mkRule "ts_project" ∅) "node" emptyState = emptyState
  ∧ dataSet (addTypes demoConfig (mkRule "ts_project" ∅) "node" emptyState) = ∅.
Proof.
  exact (addTypes_spec demoConfig (mkRule "ts_project" ∅) "node" emptyState
           eq_refl).
Defined.

End ClassificationMore.

(** ** Aliases and builtin modules in the loop over the identifiers *)

Section AliasAndBuiltin.
Import GoStrings.

Variable h : Host.

Lemma find_first {A} (f : A → bool) before x after :
  f x = true → (∀ a, a ∈ before → f a = false) →
  find f (before ++ x :: after) = Some x.
Proof.
  intros Hx. induction before as [|b before IH]; intros Hbefore; cbn.
  - by rewrite Hx.
  - rewrite (Hbefore b) by apply list_elem_of_here.
    apply IH. intros a Ha. apply Hbefore. by apply list_elem_of_further.
Qed.

Lemma find_none {A} (f : A → bool) l :
  (∀ a, a ∈ l → f a = false) → find f l = None.
Proof.
  induction l as [|b l IH]; intros Hl; [done |]. cbn.
  rewrite (Hl b) by apply list_elem_of_here.
  apply IH. intros a Ha. apply Hl. by apply list_elem_of_further.
Qed.

(** The rewriting of aliases.  Without a match of the alias pattern the
    identifier is kept.  With a match that is a prefix of the
    identifier, the prefix is replaced by the target of the first alias
    rule whose source is exactly the matched text; when no rule has that
    source, the prefix is dropped.  With a match that is not a prefix of
    the identifier, the target is put in front of the whole
    identifier. *)
Theorem translateAlias_spec jsConfig name :
  (ImportAliasPattern jsConfig name = [] → translateAlias jsConfig name = name)
  ∧ (∀ prefix groups rest before alias after,
       ImportAliasPattern jsConfig name = prefix :: groups →
       name = prefix +:+ rest →
       ImportAliases jsConfig = before ++ alias :: after →
       From alias = prefix →
       (∀ a, a ∈ before → From a ≠ prefix) →
       translateAlias jsConfig name = To alias +:+ rest)
  ∧ (∀ prefix groups rest,
       ImportAliasPattern jsConfig name = prefix :: groups →
       name = prefix +:+ rest →
       (∀ a, a ∈ ImportAliases jsConfig → From a ≠ prefix) →
       translateAlias jsConfig name = rest)
  ∧ (∀ prefix groups before alias after,
       ImportAliasPattern jsConfig name = prefix :: groups →
       HasPrefix name prefix = false →
       ImportAliases jsConfig = before ++ alias :: after →
       From alias = prefix →
       (∀ a, a ∈ before → From a ≠ prefix) →
       translateAlias jsConfig name = To alias +:+ name).
Proof.
  unfold translateAlias. repeat split.
  - by intros ->.
  - intros prefix groups rest before alias after -> -> -> Hfrom Hbefore.
    rewrite find_first, TrimPrefix_app; [done | by apply String.eqb_eq |].
    intros a Ha. by apply String.eqb_neq, Hbefore.
  - intros prefix groups rest -> -> Hnone.
    rewrite find_none, TrimPrefix_app; [done |].
    intros a Ha. by apply String.eqb_neq, Hnone.
  - intros prefix groups before alias after -> Hnp -> Hfrom Hbefore.
    rewrite find_first, HasPrefix_false_TrimPrefix;
      [done.. | by apply String.eqb_eq |].
    intros a Ha. by apply String.eqb_neq, Hbefore.
Qed.

(** No name of a builtin module has a slash, starts with "@", or starts
    with an exempt prefix. *)
Lemma builtin_shape name :
  name ∈ BUILTINS →
  Contains name "/" = false ∧ HasPrefix name "@" = false
  ∧ hasPrefix npmExemptPrefixes name = false.
Proof.
  assert (Hall : set_Forall
            (λ n, Contains n "/" = false ∧ HasPrefix n "@" = false
                  ∧ hasPrefix npmExemptPrefixes n = false) BUILTINS)
    by (refine (bool_decide_unpack _ _); by vm_compute).
  apply Hall.
Qed.

Lemma packageRoot_no_slash name :
  Contains name "/" = false → packageRoot name = name.
Proof. intros Hn. by apply scan_no_slash. Qed.

(** A builtin module, or an identifier with the "node:" scheme, whose
    package root is in neither npm table: the loop body returns at once,
    whatever the fuel, without a query of the index.  It adds at most the
    companion type package to the dependency set, and nothing to the
    data set or to the log; for a rule that is no ts_project, or with
    LookupTypes off, the state stays as it was. *)
Theorem builtin_import fuel jsConfig r from packageJSON name st :
  isManifestName name = false →
  let imp := translateAlias jsConfig name in
  imp ∈ BUILTINS ∨ HasPrefix imp "node:" = true →
  Dependencies (NpmDependencies jsConfig) !! packageRoot imp = None →
  DevDependencies (NpmDependencies jsConfig) !! packageRoot imp = None →
  resolveImport h fuel jsConfig r from packageJSON name st
    = Some (addTypes jsConfig r (if HasPrefix imp "node:" then "node" else imp) st)
  ∧ ∀ st', resolveImport h fuel jsConfig r from packageJSON name st = Some st' →
           dataSet st' = dataSet st ∧ logs st' = logs st
           ∧ depSet st ⊆ depSet st'
           ∧ (LookupTypes jsConfig && String.eqb (Kind r) "ts_project" = false →
              st' = st).
Proof.
  intros Hman imp Hbuiltin Hdep Hdev.
  assert (Hat : HasPrefix imp "@" = false).
  { destruct Hbuiltin as [Hin|Hnode]; [by apply builtin_shape |].
    apply HasPrefix_true in Hnode as [rest ->]. done. }
  assert (Hnpm : isNpmDependency imp jsConfig = (false, "", false)).
  { unfold isNpmDependency. destruct (hasPrefix _ _); [done |].
    rewrite Hdep, Hdev, Hat. by destruct (HasPrefix imp "@types"). }
  assert (Hres : resolveImport h fuel jsConfig r from packageJSON name st
            = Some (addTypes jsConfig r
                      (if HasPrefix imp "node:" then "node" else imp) st)).
  { unfold resolveImport. unfold isManifestName in Hman. rewrite Hman.
    fold imp. rewrite Hnpm.
    destruct (HasPrefix imp "node:") eqn:Hnode; [done |].
    destruct Hbuiltin as [Hin|?]; [|done].
    by rewrite bool_decide_eq_true_2. }
  split; [done |]. intros st'. rewrite Hres. intros [= <-].
  rewrite addTypes_dataSet, addTypes_logs.
  split; [done |]. split; [done |]. split; [apply addTypes_depSet |].
  intros Hoff. unfold addTypes. by rewrite Hoff.
Qed.

(** The npm tables come before the list of builtin modules: a builtin
    name that is a key of the dependency table is an npm package, with
    an edge in both sets. *)
Theorem builtin_in_table fuel jsConfig r from packageJSON name st npmLabel :
  isManifestName name = false →
  translateAlias jsConfig name ∈ BUILTINS →
  Dependencies (NpmDependencies jsConfig) !! translateAlias jsConfig name
    = Some npmLabel →
  let imp := translateAlias jsConfig name in
  resolveImport h fuel jsConfig r from packageJSON name st
    = Some (addTypes jsConfig r imp
              (addData (npmLabel +:+ imp) (addDep (npmLabel +:+ imp) st))).
Proof.
  intros Hman Hin Hdep imp.
  destruct (builtin_shape _ Hin) as (Hslash & Hat & Hex).
  assert (Hnpm : isNpmDependency imp jsConfig = (true, npmLabel, false)).
  { unfold isNpmDependency. fold imp in Hex. rewrite Hex.
    rewrite packageRoot_no_slash by done. fold imp in Hdep. by rewrite Hdep. }
  rewrite (resolveImport_npm h _ _ _ _ _ _ _ npmLabel false Hman Hnpm).
  cbv zeta. fold imp.
  by rewrite (npmPackageName_no_slash imp Hslash).
Qed.

End AliasAndBuiltin.

Lemma builtin_import_witness :
  resolveImport demoHost 0 demoConfig (mkRule "js_library" ∅) demoFrom
    "//:package" "node:fs/promises" emptyState = Some emptyState.
Proof.
  exact (proj1 (builtin_import demoHost 0 demoConfig (mkRule "js_library" ∅)
                  demoFrom "//:package" "node:fs/promises" emptyState eq_refl
                  (or_intror eq_refl) eq_refl eq_refl)).
Defined.


Lemma builtin_in_table_witness :
  resolveImport demoHost 0 eventsConfig (mkRule "js_library" ∅) demoFrom
    "//:package" "events" emptyState
    = Some (mkState {["@npm//events"]} {["@npm//events"]} []).
Proof.
  rewrite (builtin_in_table demoHost 0 eventsConfig (mkRule "js_library" ∅)
             demoFrom "//:package" "events" emptyState "@npm//" eq_refl).
  - by vm_compute.
  - refine (bool_decide_unpack _ _). by vm_compute.
  - by vm_compute.
Defined.

Example translateAlias_run :
  translateAlias eventsConfig "~/a/b" = "src/a/b"
  ∧ translateAlias eventsConfig "src/a/b" = "src/a/b".
Proof. by vm_compute. Qed.

(** ** The outcomes of tryResolve and of the walk *)

Section WalkOutcomes.
Import GoStrings.

Variable h : Host.

(** The five shapes of a result of [tryResolve]. *)
Lemma tryResolve_shape target from :
  let rr := tryResolve h target from in
  rr = noResult
  ∨ (∃ e, rr = mkResolveResult label.NoLabel false "" (Some e))
  ∨ rr = mkResolveResult label.NoLabel true "" None
  ∨ (∃ f, rr = mkResolveResult label.NoLabel false f None)
  ∨ (∃ l, rr = mkResolveResult l false "" None).
Proof.
  assert (Hix : let rr := tryResolveIndex h target from in
            rr = noResult ∨ (∃ e, rr = mkResolveResult label.NoLabel false "" (Some e))
            ∨ rr = mkResolveResult label.NoLabel true "" None
            ∨ (∃ f, rr = mkResolveResult label.NoLabel false f None)
            ∨ (∃ l, rr = mkResolveResult l false "" None)).
  { unfold tryResolveIndex.
    destruct (FindRulesByImportWithConfig _ _ _) as [|m0 [|m1 more]].
    - destruct (os_Stat _ _) as [fi|]; [|by left].
      destruct (negb _); [|by left]. right. right. right. left. by eexists.
    - destruct (IsSelfImport m0 from); [by right; right; left |].
      right. right. right. right. by eexists.
    - right. left. by eexists. }
  unfold tryResolve. destruct (FindRuleWithOverride _ _ _) as [o|]; [|done].
  destruct (negb _); [|done]. right. right. right. right. by eexists.
Qed.

(** The four outcomes of [tryResolve] exclude each other: a result
    carries at most one of an error, the self-import mark, a file name
    and a label. *)
Theorem tryResolve_exclusive target from :
  let rr := tryResolve h target from in
  (err rr ≠ None →
     rlabel rr = label.NoLabel ∧ selfImport rr = false ∧ fileName rr = "")
  ∧ (selfImport rr = true →
     rlabel rr = label.NoLabel ∧ fileName rr = "" ∧ err rr = None)
  ∧ (fileName rr ≠ "" →
     rlabel rr = label.NoLabel ∧ selfImport rr = false ∧ err rr = None)
  ∧ (rlabel rr ≠ label.NoLabel →
     selfImport rr = false ∧ fileName rr = "" ∧ err rr = None).
Proof.
  cbv zeta.
  destruct (tryResolve_shape target from)
    as [->|[[e ->]|[->|[[f ->]|[l ->]]]]]; cbn; repeat split; done.
Qed.

(** The query of the index for the identifier as written, before any
    walk.  A label it returns becomes a dependency edge, rendered
    relative to the importing unit, and no directory is walked.  Every
    other outcome, an ambiguity error included, is dropped without a
    message and the walk over the directories decides. *)
Theorem direct_query fuel jsConfig r from packageJSON name st :
  isManifestName name = false →
  let imp := translateAlias jsConfig name in
  (isNpmDependency imp jsConfig).1.1 = false →
  HasPrefix imp "node:" = false →
  imp ∉ BUILTINS →
  let rr := tryResolve h imp from in
  (rlabel rr ≠ label.NoLabel →
   resolveImport h fuel jsConfig r from packageJSON name st
     = Some (addDep (label.String (label.Rel (rlabel rr) (Repo from) (Pkg from))) st))
  ∧ (rlabel rr = label.NoLabel →
     resolveImport h fuel jsConfig r from packageJSON name st
       = resolveWalkParents h fuel imp st from).
Proof.
  intros Hman imp Hnpm Hnode Hbi rr.
  assert (Hstep : resolveImport h fuel jsConfig r from packageJSON name st
            = if bool_decide (err rr = None) && negb (selfImport rr)
                 && negb (bool_decide (rlabel rr = label.NoLabel))
              then Some (addDep (label.String
                                   (label.Rel (rlabel rr) (Repo from) (Pkg from))) st)
              else resolveWalkParents h fuel imp st from).
  { unfold resolveImport. unfold isManifestName in Hman. rewrite Hman.
    fold imp. destruct (isNpmDependency imp jsConfig) as [[isNpm l] dev].
    simpl in Hnpm. subst isNpm. rewrite Hnode.
    by rewrite bool_decide_eq_false_2. }
  rewrite Hstep. unfold rr.
  destruct (tryResolve_shape imp from)
    as [->|[[e ->]|[->|[[f ->]|[l ->]]]]]; cbn [err selfImport rlabel];
    split; intros Hl; try done.
  - by rewrite bool_decide_eq_true_2, (bool_decide_eq_false_2 _ Hl).
  - rewrite bool_decide_eq_true_2 by done.
    by rewrite (bool_decide_eq_true_2 _ Hl).
Qed.

Lemma normalizeName_idem name :
  normalizeName (normalizeName name) = normalizeName name.
Proof.
  unfold normalizeName.
  destruct (String.eqb_spec name "package") as [->|Hp]; [done |].
  destruct (String.eqb_spec name ".") as [->|Hd]; [done |].
  apply String.eqb_neq in Hp, Hd. by rewrite Hp, Hd.
Qed.

Lemma walkParents_normalize fuel name parents tries st from :
  walkParents h fuel name parents tries st from
    = walkParents h fuel (normalizeName name) parents tries st from.
Proof.
  destruct fuel as [|fuel]; [done |].
  cbn [walkParents]. by rewrite normalizeName_idem.
Qed.

(** The walk treats "package" as "package.json" and "." as "index",
    also in what it prints: walking the one is walking the other, with
    the same edges and the same messages. *)
Theorem walk_normalizes_name fuel st from :
  resolveWalkParents h fuel "." st from
    = resolveWalkParents h fuel "index" st from
  ∧ resolveWalkParents h fuel "package" st from
    = resolveWalkParents h fuel "package.json" st from
  ∧ ∀ name, resolveWalkParents h fuel name st from
            = resolveWalkParents h fuel (normalizeName name) st from.
Proof.
  unfold resolveWalkParents. split; [|split].
  - apply (walkParents_normalize fuel ".").
  - apply (walkParents_normalize fuel "package").
  - intros name. apply walkParents_normalize.
Qed.

(** One iteration of the walk, when the first extensions find nothing. *)
Lemma walkParents_probe fuel name parents tries st from exts1 exts2 :
  let jsConfig := jsConfigs h (Pkg from) in
  let localDir := GoPath.Join [Pkg from; parents] in
  let base := GoPath.Join [localDir; normalizeName name] in
  extraExtensions h from base = exts1 ++ exts2 →
  (∀ e, e ∈ exts1 → tryResolve h (base +:+ e) from = noResult) →
  walkParents h (S fuel) name parents tries st from =
    match probeExtensions h jsConfig from base exts2
            (tries ++ map (λ e, base +:+ e) exts1) st with
    | Returned st' => Some st'
    | NotFound tries' =>
        if String.eqb (JSRoot jsConfig) localDir || String.eqb localDir "."
        then Some (logPrint (notFoundLogs jsConfig from (normalizeName name) tries') st)
        else walkParents h fuel (normalizeName name) (parents +:+ "../") tries' st from
    end.
Proof.
  intros jsConfig localDir base Hexts Hnone.
  cbn [walkParents]. fold jsConfig localDir base.
  change ("" :: (if negb (isWebAsset h jsConfig base)
                 then tsExtensions h ++ jsExtensions h else []))
    with (extraExtensions h from base).
  by rewrite Hexts, probeExtensions_app.
Qed.

(** The first probe that the index answers with one owner other than
    the importing unit ends the walk with one new edge to that owner,
    rendered relative to the importing unit: a data edge when the probed
    path is a web asset, a dependency edge otherwise.  Nothing is
    printed and the other set is left as it was. *)
Theorem walk_resolved fuel name parents tries st from exts1 ext exts2 m :
  let jsConfig := jsConfigs h (Pkg from) in
  let base := GoPath.Join [GoPath.Join [Pkg from; parents]; normalizeName name] in
  extraExtensions h from base = exts1 ++ ext :: exts2 →
  (∀ e, e ∈ exts1 → tryResolve h (base +:+ e) from = noResult) →
  noEffectiveOverride h (base +:+ ext) from →
  FindRulesByImportWithConfig h (specOf h (base +:+ ext)) (languageName h) = [m] →
  IsSelfImport m from = false →
  Label_ m ≠ label.NoLabel →
  walkParents h (S fuel) name parents tries st from =
    let dep := label.String (label.Rel (Label_ m) (Repo from) (Pkg from)) in
    Some (if isWebAsset h jsConfig (base +:+ ext)
          then addData dep st else addDep dep st).
Proof.
  intros jsConfig base Hexts Hnone Hov Hix Hself Hlbl.
  rewrite (walkParents_probe _ _ _ _ _ _ exts1 (ext :: exts2)) by done.
  fold jsConfig base. cbn [probeExtensions].
  rewrite (tryResolve_index h _ _ Hov). unfold tryResolveIndex.
  unfold specOf in Hix. rewrite Hix, Hself. cbn [err selfImport rlabel].
  rewrite (bool_decide_eq_false_2 _ Hlbl). cbn [negb].
  by destruct (isWebAsset h jsConfig (base +:+ ext)).
Qed.

(** The first probe that the index answers with the importing unit
    itself ends the walk: no edge, nothing printed, and no directory
    further up is tried. *)
Theorem walk_self_import fuel name parents tries st from exts1 ext exts2 m :
  let base := GoPath.Join [GoPath.Join [Pkg from; parents]; normalizeName name] in
  extraExtensions h from base = exts1 ++ ext :: exts2 →
  (∀ e, e ∈ exts1 → tryResolve h (base +:+ e) from = noResult) →
  noEffectiveOverride h (base +:+ ext) from →
  FindRulesByImportWithConfig h (specOf h (base +:+ ext)) (languageName h) = [m] →
  IsSelfImport m from = true →
  walkParents h (S fuel) name parents tries st from = Some st.
Proof.
  intros base Hexts Hnone Hov Hix Hself.
  rewrite (walkParents_probe _ _ _ _ _ _ exts1 (ext :: exts2)) by done.
  fold base. cbn [probeExtensions].
  rewrite (tryResolve_index h _ _ Hov). unfold tryResolveIndex.
  unfold specOf in Hix. by rewrite Hix, Hself.
Qed.

(** The first probe that no rule owns but that names a regular file
    below the repository root ends the walk with a data edge to that
    file, under the directory of the probed target; the dependency set
    is left as it was.  A directory of that name is no answer. *)
Theorem walk_file_on_disk fuel name parents tries st from exts1 ext exts2 fileInfo :
  let base := GoPath.Join [GoPath.Join [Pkg from; parents]; normalizeName name] in
  extraExtensions h from base = exts1 ++ ext :: exts2 →
  (∀ e, e ∈ exts1 → tryResolve h (base +:+ e) from = noResult) →
  noEffectiveOverride h (base +:+ ext) from →
  FindRulesByImportWithConfig h (specOf h (base +:+ ext)) (languageName h) = [] →
  os_Stat h (GoPath.Join [RepoRoot h; base +:+ ext]) = Some fileInfo →
  fiName fileInfo ≠ "" →
  tryResolve h (base +:+ ext) from
    = (if IsDir fileInfo then noResult
       else mkResolveResult label.NoLabel false (fiName fileInfo) None)
  ∧ (IsDir fileInfo = false →
     walkParents h (S fuel) name parents tries st from
       = Some (addData ("//" +:+ GoPath.Dir base +:+ ":" +:+ fiName fileInfo) st)).
Proof.
  intros base Hexts Hnone Hov Hix Hstat Hname.
  assert (Htry : tryResolve h (base +:+ ext) from
            = (if IsDir fileInfo then noResult
               else mkResolveResult label.NoLabel false (fiName fileInfo) None)).
  { rewrite (tryResolve_index h _ _ Hov). unfold tryResolveIndex.
    unfold specOf in Hix. rewrite Hix, Hstat. by destruct (IsDir fileInfo). }
  split; [done |]. intros Hfile.
  rewrite (walkParents_probe _ _ _ _ _ _ exts1 (ext :: exts2)) by done.
  fold base. cbn [probeExtensions]. rewrite Htry, Hfile.
  cbn [err selfImport rlabel fileName].
  rewrite bool_decide_eq_true_2 by done. cbn [negb].
  apply String.eqb_neq in Hname. by rewrite Hname.
Qed.

Lemma probesFrom_snoc from name j k :
  probesFrom h from name j (S k)
    = probesFrom h from name j k ++ probesAt h from name (j + k).
Proof.
  revert j. induction k as [|k IH]; intros j.
  - cbn. by rewrite Nat.add_0_r, app_nil_r.
  - change (probesFrom h from name j (S (S k)))
      with (probesAt h from name j ++ probesFrom h from name (S j) (S k)).
    rewrite IH. cbn [probesFrom]. rewrite <- app_assoc.
    by replace (S j + k) with (j + S k) by lia.
Qed.

Lemma walkParents_step_none fuel name j tries st from :
  normalizeName name = name →
  (∀ p, p ∈ probesAt h from name j → tryResolve h p from = noResult) →
  walkParents h (S fuel) name (parentsAt j) tries st from =
    if stopsAt h from j
    then Some (logPrint (notFoundLogs (jsConfigs h (Pkg from)) from name
                           (tries ++ probesAt h from name j)) st)
    else walkParents h fuel name (parentsAt (S j))
           (tries ++ probesAt h from name j) st from.
Proof.
  intros Hname Hnone.
  pose proof (walkParents_probe fuel name (parentsAt j) tries st from
                (extraExtensions h from (targetAt from name j)) []) as Hstep.
  cbv zeta in Hstep. rewrite Hname in Hstep.
  rewrite Hstep.
  - cbn [probeExtensions]. done.
  - unfold targetAt, localDirAt. by rewrite app_nil_r.
  - intros e He. apply Hnone. unfold probesAt.
    apply list_elem_of_fmap. by exists e.
Qed.

Lemma walkParents_unresolved from name d : ∀ j fuel tries st,
  normalizeName name = name →
  (∀ k, k < d → stopsAt h from (j + k) = false) →
  stopsAt h from (j + d) = true →
  (∀ p, p ∈ probesFrom h from name j (S d) → tryResolve h p from = noResult) →
  d < fuel →
  walkParents h fuel name (parentsAt j) tries st from
    = Some (logPrint
              (notFoundLogs (jsConfigs h (Pkg from)) from name
                 (tries ++ probesFrom h from name j (S d))) st).
Proof.
  induction d as [|d IH]; intros j fuel tries st Hname Hgo Hstop Hnone Hfuel;
    (destruct fuel as [|fuel]; [lia |]);
    (rewrite walkParents_step_none;
      [| done | intros p Hp; apply Hnone; cbn [probesFrom];
                apply elem_of_app; by left]).
  - rewrite Nat.add_0_r in Hstop. rewrite Hstop. cbn [probesFrom].
    by rewrite app_nil_r.
  - pose proof (Hgo 0 ltac:(lia)) as Hj. rewrite Nat.add_0_r in Hj.
    rewrite Hj. rewrite (IH (S j)); [| done | | | | lia].
    + cbn [probesFrom]. by rewrite <- app_assoc.
    + intros k Hk. replace (S j + k) with (j + S k) by lia. apply Hgo. lia.
    + by replace (S j + d) with (j + S d) by lia.
    + intros p Hp. apply Hnone.
      change (probesFrom h from name j (S (S d)))
        with (probesAt h from name j ++ probesFrom h from name (S j) (S d)).
      apply elem_of_app. by right.
Qed.

(** An identifier that nothing answers.  The walk probes, directory by
    directory from the importing unit's own upwards, the target as
    written and then with each extension (for a web asset only as
    written), and gives up in the first directory that is the configured
    root or ".".  Both sets are left as they were; unless Quiet is set
    one error naming the unit and the identifier is printed, and with
    Verbose the probed paths follow in the order in which they were
    tried. *)
Theorem walk_unresolved fuel name st from d :
  let name' := normalizeName name in
  let jsConfig := jsConfigs h (Pkg from) in
  (∀ k, k < d → stopsAt h from k = false) →
  stopsAt h from d = true →
  (∀ p, p ∈ probesFrom h from name' 0 (S d) → tryResolve h p from = noResult) →
  d < fuel →
  ∃ st', resolveWalkParents h fuel name st from = Some st'
    ∧ depSet st' = depSet st ∧ dataSet st' = dataSet st
    ∧ logs st' = logs st ++
        (if negb (Quiet jsConfig)
         then [LogErr ("[" +:+ label.String (label.Abs from (Repo from) (Pkg from))
                         +:+ "] import " +:+ name' +:+ " not found")]
         else [])
        ++ (if Verbose jsConfig
            then LogWarn ("tried node_modules/" +:+ name')
                   :: map (λ try, LogWarn ("tried " +:+ try))
                        (probesFrom h from name' 0 (S d))
            else []).
Proof.
  intros name' jsConfig Hgo Hstop Hnone Hfuel.
  eexists. split.
  - unfold resolveWalkParents. rewrite walkParents_normalize. fold name'.
    apply (walkParents_unresolved from name' d 0);
      [apply normalizeName_idem | done..].
  - done.
Qed.

End WalkOutcomes.

Section WalkOutcomeExamples.
Import GoStrings.

Lemma walk_resolved_witness :
  walkParents demoHost 1 "./other" "" [] emptyState demoFrom
    = Some (mkState {[":other"]} ∅ []).
Proof.
  rewrite (walk_resolved demoHost 0 "./other" "" [] emptyState demoFrom
             [""] ".ts" [".tsx"; ".js"]
             (mkFindResult (mkLabel "" "pkg/sub" "other" false) [])).
  - by vm_compute.
  - reflexivity.
  - intros e He. apply list_elem_of_singleton in He as ->. reflexivity.
  - exact I.
  - reflexivity.
  - reflexivity.
  - discriminate.
Defined.

Example walk_resolved_asset :
  walkParents assetHost 1 "./style.css" "" [] emptyState demoFrom
    = Some (mkState ∅ {[":styles"]} []).
Proof. by vm_compute. Qed.

Lemma walk_self_import_witness :
  walkParents demoHost 1 "./other" "" [] emptyState otherFrom = Some emptyState.
Proof.
  apply (walk_self_import demoHost 0 "./other" "" [] emptyState otherFrom
           [""] ".ts" [".tsx"; ".js"]
           (mkFindResult (mkLabel "" "pkg/sub" "other" false) [])).
  - reflexivity.
  - intros e He. apply list_elem_of_singleton in He as ->. reflexivity.
  - exact I.
  - reflexivity.
  - reflexivity.
Defined.

Lemma walk_file_on_disk_witness :
  walkParents assetHost 1 "./logo.svg" "" [] emptyState demoFrom
    = Some (mkState ∅ {["//pkg/sub:logo.svg"]} []).
Proof.
  destruct (walk_file_on_disk assetHost 0 "./logo.svg" "" [] emptyState demoFrom
              [] "" [] (mkFileInfo "logo.svg" false)) as [_ Hwalk].
  - reflexivity.
  - intros e He. by apply elem_of_nil in He.
  - exact I.
  - reflexivity.
  - reflexivity.
  - discriminate.
  - rewrite (Hwalk eq_refl). by vm_compute.
Defined.

Example walk_directory_on_disk :
  tryResolve assetHost "pkg/sub/icons" demoFrom = noResult.
Proof. reflexivity. Qed.

Lemma walk_unresolved_witness :
  ∃ st', resolveWalkParents demoHost 3 "./utils2" emptyState demoFrom = Some st'
    ∧ depSet st' = ∅ ∧ dataSet st' = ∅
    ∧ logs st' = [LogErr "[//pkg/sub:lib] import ./utils2 not found"].
Proof.
  destruct (walk_unresolved demoHost 3 "./utils2" emptyState demoFrom 2)
    as (st' & Hst & Hdep & Hdata & Hlogs).
  - intros [|[|k]] Hk; [reflexivity | reflexivity | lia].
  - reflexivity.
  - apply Forall_forall. vm_compute. repeat constructor.
  - lia.
  - exists st'. split; [exact Hst |]. split; [exact Hdep |].
    split; [exact Hdata |]. rewrite Hlogs. by vm_compute.
Defined.

Example probes_in_order :
  probesFrom demoHost demoFrom "./utils" 0 2
    = [ "pkg/sub/utils"; "pkg/sub/utils.ts"; "pkg/sub/utils.tsx"; "pkg/sub/utils.js";
        "pkg/utils"; "pkg/utils.ts"; "pkg/utils.tsx"; "pkg/utils.js" ].
Proof. reflexivity. Qed.

End WalkOutcomeExamples.

(** ** What one identifier adds does not depend on the others *)

Section Contributions.
Import GoStrings.

Variable h : Host.

Ltac state_eq :=
  unfold extend, addDep, addData, logPrint, emptyState;
  cbn [depSet dataSet logs]; f_equal;
  rewrite ?union_empty_r_L, ?union_empty_l_L, ?app_nil_r; try done.

Lemma extend_empty st : extend st emptyState = st.
Proof. destruct st. state_eq. Qed.

Lemma extend_empty_l d : extend emptyState d = d.
Proof. destruct d. state_eq. Qed.

Lemma extend_addDep x st : addDep x st = extend st (addDep x emptyState).
Proof. state_eq. Qed.

Lemma extend_addData x st : addData x st = extend st (addData x emptyState).
Proof. state_eq. Qed.

Lemma extend_logPrint es st : logPrint es st = extend st (logPrint es emptyState).
Proof. state_eq. Qed.

Lemma extend_assoc st a b : extend (extend st a) b = extend st (extend a b).
Proof.
  unfold extend; cbn [depSet dataSet logs]. f_equal.
  - by rewrite (assoc_L (∪)).
  - by rewrite (assoc_L (∪)).
  - by rewrite app_assoc.
Qed.

Lemma addDep_extend x st d : addDep x (extend st d) = extend st (addDep x d).
Proof.
  unfold extend, addDep; cbn [depSet dataSet logs]. f_equal.
  by rewrite (assoc_L (∪)).
Qed.

Lemma addData_extend x st d : addData x (extend st d) = extend st (addData x d).
Proof.
  unfold extend, addData; cbn [depSet dataSet logs]. f_equal.
  by rewrite (assoc_L (∪)).
Qed.

Lemma addTypes_extend jsConfig r name st d :
  addTypes jsConfig r name (extend st d) = extend st (addTypes jsConfig r name d).
Proof.
  unfold addTypes. destruct (_ && _); [|done].
  destruct (isNpmDependency _ _) as [[[] l] ?]; [|done].
  apply addDep_extend.
Qed.

Lemma probeExtensions_frame jsConfig from target exts : ∀ tries st,
  probeExtensions h jsConfig from target exts tries st =
    match probeExtensions h jsConfig from target exts tries emptyState with
    | Returned d => Returned (extend st d)
    | NotFound tries' => NotFound tries'
    end.
Proof.
  induction exts as [|ext exts IH]; intros tries st; [done |].
  cbn [probeExtensions].
  destruct (err _) as [e|]; [by rewrite extend_logPrint |].
  destruct (selfImport _); [by rewrite extend_empty |].
  destruct (negb (bool_decide _)).
  { destruct (negb (isWebAsset _ _ _));
      [by rewrite extend_addDep | by rewrite extend_addData]. }
  destruct (negb (String.eqb _ _)); [by rewrite extend_addData |].
  apply IH.
Qed.

Lemma walkParents_frame from fuel : ∀ name parents tries st,
  walkParents h fuel name parents tries st from
    = extend st <$> walkParents h fuel name parents tries emptyState from.
Proof.
  induction fuel as [|fuel IH]; intros name parents tries st; [done |].
  cbn [walkParents]. rewrite probeExtensions_frame.
  destruct (probeExtensions _ _ _ _ _ _ emptyState) as [d|tries']; [done |].
  destruct (_ || _); [cbn; by rewrite extend_logPrint |].
  apply IH.
Qed.

(** What the loop body does with a state is what it does with the empty
    state, added to that state. *)
Lemma resolveImport_frame fuel jsConfig r from packageJSON name st :
  resolveImport h fuel jsConfig r from packageJSON name st
    = extend st <$> resolveImport h fuel jsConfig r from packageJSON name emptyState.
Proof.
  unfold resolveImport.
  destruct (_ || _); [cbn; by rewrite extend_addDep |].
  destruct (isNpmDependency _ _) as [[[] l] d].
  { cbn. f_equal. destruct d; cbn [negb].
    - rewrite (extend_addDep _ st). apply addTypes_extend.
    - rewrite (extend_addDep _ st), addData_extend. apply addTypes_extend. }
  destruct (HasPrefix _ _).
  { cbn. f_equal. rewrite <- (extend_empty st) at 1. apply addTypes_extend. }
  destruct (bool_decide (_ ∈ BUILTINS)).
  { cbn. f_equal. rewrite <- (extend_empty st) at 1. apply addTypes_extend. }
  destruct (_ && _); [cbn; by rewrite extend_addDep |].
  apply walkParents_frame.
Qed.

Lemma resolveImports_frame fuel jsConfig r from packageJSON names : ∀ st,
  resolveImports h fuel jsConfig r from packageJSON names st
    = extend st <$> resolveImports h fuel jsConfig r from packageJSON names emptyState.
Proof.
  induction names as [|name names IH]; intros st.
  - cbn. by rewrite extend_empty.
  - cbn [resolveImports]. rewrite resolveImport_frame.
    destruct (resolveImport _ _ _ _ _ _ _ emptyState) as [d|]; [|done].
    cbn [fmap option_fmap option_map]. rewrite (IH (extend st d)), (IH d).
    destruct (resolveImports _ _ _ _ _ _ _ emptyState) as [d'|]; [|done].
    cbn. by rewrite extend_assoc.
Qed.

Lemma resolveImports_cons fuel jsConfig r from packageJSON name names st st' :
  resolveImports h fuel jsConfig r from packageJSON (name :: names) st = Some st' →
  ∃ d d', resolveImport h fuel jsConfig r from packageJSON name emptyState = Some d
          ∧ resolveImports h fuel jsConfig r from packageJSON names emptyState = Some d'
          ∧ st' = extend st (extend d d').
Proof.
  cbn [resolveImports]. rewrite resolveImport_frame.
  destruct (resolveImport _ _ _ _ _ _ _ emptyState) as [d|]; [|done].
  cbn [fmap option_fmap option_map]. rewrite resolveImports_frame.
  destruct (resolveImports _ _ _ _ _ _ _ emptyState) as [d'|]; [|done].
  cbn. intros [= <-]. exists d, d'. by rewrite extend_assoc.
Qed.

Lemma resolveImports_elem fuel jsConfig r from packageJSON names : ∀ st st',
  resolveImports h fuel jsConfig r from packageJSON names st = Some st' →
  (∀ x, x ∈ depSet st' ↔
        x ∈ depSet st
        ∨ ∃ name d, name ∈ names
            ∧ resolveImport h fuel jsConfig r from packageJSON name emptyState = Some d
            ∧ x ∈ depSet d)
  ∧ (∀ x, x ∈ dataSet st' ↔
          x ∈ dataSet st
          ∨ ∃ name d, name ∈ names
              ∧ resolveImport h fuel jsConfig r from packageJSON name emptyState = Some d
              ∧ x ∈ dataSet d).
Proof.
  induction names as [|name names IH]; intros st st'.
  - intros [= <-]. split; intros x; split; try (by left).
    + intros [?|(n & d & Hn & _)]; [done | by apply elem_of_nil in Hn].
    + intros [?|(n & d & Hn & _)]; [done | by apply elem_of_nil in Hn].
  - intros Hst. apply resolveImports_cons in Hst as (d & d' & Hd & Hd' & ->).
    destruct (IH emptyState d' Hd') as [IHdep IHdata].
    split; intros x; cbn [extend depSet dataSet]; rewrite !elem_of_union.
    + rewrite IHdep. cbn. rewrite elem_of_empty. split.
      * intros [[[[]|(n & dn & Hn & Hdn & Hx)]|Hx]|Hx]; [| |by left].
        -- right. exists n, dn. by rewrite elem_of_cons; auto.
        -- right. exists name, d. by rewrite elem_of_cons; auto.
      * intros [Hx|(n & dn & Hn & Hdn & Hx)]; [by right |].
        apply elem_of_cons in Hn as [->|Hn].
        -- left. right. congruence.
        -- left. left. right. by exists n, dn.
    + rewrite IHdata. cbn. rewrite elem_of_empty. split.
      * intros [[[[]|(n & dn & Hn & Hdn & Hx)]|Hx]|Hx]; [| |by left].
        -- right. exists n, dn. by rewrite elem_of_cons; auto.
        -- right. exists name, d. by rewrite elem_of_cons; auto.
      * intros [Hx|(n & dn & Hn & Hdn & Hx)]; [by right |].
        apply elem_of_cons in Hn as [->|Hn].
        -- left. right. congruence.
        -- left. left. right. by exists n, dn.
Qed.

(** The loop over the identifiers collects, and only collects: what an
    identifier adds is what it would add to the empty state, whatever
    was collected before; at the end each set holds what it held at the
    start and what the identifiers add, and nothing else, and the log
    has only grown. *)
Theorem identifiers_contribute fuel jsConfig r from packageJSON names st st' :
  resolveImports h fuel jsConfig r from packageJSON names st = Some st' →
  (∀ name st0,
     resolveImport h fuel jsConfig r from packageJSON name st0
       = extend st0 <$> resolveImport h fuel jsConfig r from packageJSON name emptyState)
  ∧ (∀ x, x ∈ depSet st' ↔
          x ∈ depSet st
          ∨ ∃ name d, name ∈ names
              ∧ resolveImport h fuel jsConfig r from packageJSON name emptyState = Some d
              ∧ x ∈ depSet d)
  ∧ (∀ x, x ∈ dataSet st' ↔
          x ∈ dataSet st
          ∨ ∃ name d, name ∈ names
              ∧ resolveImport h fuel jsConfig r from packageJSON name emptyState = Some d
              ∧ x ∈ dataSet d)
  ∧ ∃ printed, logs st' = logs st ++ printed.
Proof.
  intros Hst. split; [intros; apply resolveImport_frame |].
  destruct (resolveImports_elem _ _ _ _ _ _ _ _ Hst) as [Hdep Hdata].
  split; [done |]. split; [done |].
  rewrite resolveImports_frame in Hst.
  destruct (resolveImports _ _ _ _ _ _ _ emptyState) as [d|]; [|done].
  injection Hst as <-. by exists (logs d).
Qed.

End Contributions.

(** ** The jest block *)

Section JestBlock.
Import GoStrings.

Variable h : Host.

Lemma jestDependency_elem st name npmLabel :
  let st' := jestDependency st (name, npmLabel) in
  (∀ x, x ∈ depSet st' ↔
        x ∈ depSet st ∨ (jestDepEntry name = true ∧ x = npmLabel +:+ name))
  ∧ (∀ x, x ∈ dataSet st' ↔
          x ∈ dataSet st ∨ (jestDataEntry name = true ∧ x = npmLabel +:+ name))
  ∧ logs st' = logs st.
Proof.
  unfold jestDependency, jestDepEntry, jestDataEntry.
  destruct (_ || _); cbn [negb andb].
  { repeat split; try (by left); by intros [?|[? _]]. }
  destruct (HasPrefix name "@types/jest"), (HasPrefix name "jest");
    cbn [orb depSet dataSet logs addDep addData];
    (split; [|split; [|done]]); intros x;
    rewrite ?elem_of_union, ?elem_of_singleton; intuition congruence.
Qed.

Lemma fold_jestDependency_elem entries : ∀ st,
  let st' := fold_left jestDependency entries st in
  (∀ x, x ∈ depSet st' ↔
        x ∈ depSet st
        ∨ ∃ name npmLabel, (name, npmLabel) ∈ entries
            ∧ jestDepEntry name = true ∧ x = npmLabel +:+ name)
  ∧ (∀ x, x ∈ dataSet st' ↔
          x ∈ dataSet st
          ∨ ∃ name npmLabel, (name, npmLabel) ∈ entries
              ∧ jestDataEntry name = true ∧ x = npmLabel +:+ name)
  ∧ logs st' = logs st.
Proof.
  induction entries as [|[name l] entries IH]; intros st; cbn [fold_left].
  - repeat split; try (by left);
      intros [?|(n & l & Hin & _)]; try done; by apply elem_of_nil in Hin.
  - destruct (IH (jestDependency st (name, l))) as (IHdep & IHdata & IHlogs).
    destruct (jestDependency_elem st name l) as (Hdep & Hdata & Hlogs).
    split; [|split; [|by rewrite IHlogs]]; intros x.
    + rewrite IHdep, Hdep. split.
      * intros [[?|[? ->]]|(n & l' & Hin & ? & ->)]; [by left | |].
        -- right. exists name, l. by rewrite elem_of_cons; auto.
        -- right. exists n, l'. by rewrite elem_of_cons; auto.
      * intros [?|(n & l' & Hin & ? & ->)]; [by left; left |].
        apply elem_of_cons in Hin as [[= -> ->]|Hin]; [by left; right |].
        right. by exists n, l'.
    + rewrite IHdata, Hdata. split.
      * intros [[?|[? ->]]|(n & l' & Hin & ? & ->)]; [by left | |].
        -- right. exists name, l. by rewrite elem_of_cons; auto.
        -- right. exists n, l'. by rewrite elem_of_cons; auto.
      * intros [?|(n & l' & Hin & ? & ->)]; [by left; left |].
        apply elem_of_cons in Hin as [[= -> ->]|Hin]; [by left; right |].
        right. by exists n, l'.
Qed.

Lemma jestDependencies_elem jsConfig r st :
  range_complete h →
  String.eqb (Kind r) (getKind h "jest_test") = true →
  let st' := jestDependencies h jsConfig r st in
  let dev := DevDependencies (NpmDependencies jsConfig) in
  let packageLocation :=
    if String.eqb (JSRoot jsConfig) "." then "" else JSRoot jsConfig in
  (∀ x, x ∈ depSet st' ↔
        x ∈ depSet st
        ∨ ∃ name npmLabel, dev !! name = Some npmLabel
            ∧ jestDepEntry name = true ∧ x = npmLabel +:+ name)
  ∧ (∀ x, x ∈ dataSet st' ↔
          x ∈ dataSet st
          ∨ x = "//" +:+ packageLocation +:+ ":package_json"
          ∨ ∃ name npmLabel, dev !! name = Some npmLabel
              ∧ jestDataEntry name = true ∧ x = npmLabel +:+ name)
  ∧ logs st' = logs st.
Proof.
  intros [_ Htable]. unfold jestDependencies.
  intros ->. cbv zeta.
  destruct (fold_jestDependency_elem
              (rangeTable h (DevDependencies (NpmDependencies jsConfig))) st)
    as (Hdep & Hdata & Hlogs).
  assert (Hin : ∀ name l,
            (name, l) ∈ rangeTable h (DevDependencies (NpmDependencies jsConfig))
            ↔ DevDependencies (NpmDependencies jsConfig) !! name = Some l).
  { intros name l. by rewrite (Htable _), elem_of_map_to_list. }
  split; [|split; [|done]]; intros x; cbn [addData depSet dataSet].
  - rewrite Hdep. split; (intros [?|(n & l & Hn & ?)]; [by left |]);
      right; exists n, l; by rewrite ?Hin in *.
  - rewrite elem_of_union, elem_of_singleton, Hdata. split.
    + intros [->|[?|(n & l & Hn & ?)]]; [by right; left | by left |].
      right. right. exists n, l. by rewrite <- Hin.
    + intros [?|[->|(n & l & Hn & ?)]]; [by right; left | by left |].
      right. right. exists n, l. by rewrite Hin.
Qed.

(** The jest block.  For a rule of another kind it changes nothing.  For
    a jest_test it adds, for every entry of the dev-dependency table
    other than "jest-cli" and "jest-junit", the label followed by the
    name: to the dependency set when the name starts with "@types/jest"
    or with "jest", and to the data set when it starts with "jest"; it
    adds the package_json target of the configured root to the data
    set; it adds nothing else and prints nothing.  The outcome does not
    depend on the order in which the table is enumerated. *)
Theorem jestDependencies_spec jsConfig r st :
  range_complete h →
  (String.eqb (Kind r) (getKind h "jest_test") = false →
   jestDependencies h jsConfig r st = st)
  ∧ (String.eqb (Kind r) (getKind h "jest_test") = true →
     let st' := jestDependencies h jsConfig r st in
     let dev := DevDependencies (NpmDependencies jsConfig) in
     let packageLocation :=
       if String.eqb (JSRoot jsConfig) "." then "" else JSRoot jsConfig in
     (∀ x, x ∈ depSet st' ↔
           x ∈ depSet st
           ∨ ∃ name npmLabel, dev !! name = Some npmLabel
               ∧ jestDepEntry name = true ∧ x = npmLabel +:+ name)
     ∧ (∀ x, x ∈ dataSet st' ↔
             x ∈ dataSet st
             ∨ x = "//" +:+ packageLocation +:+ ":package_json"
             ∨ ∃ name npmLabel, dev !! name = Some npmLabel
                 ∧ jestDataEntry name = true ∧ x = npmLabel +:+ name)
     ∧ logs st' = logs st).
Proof.
  intros Hrange. split.
  - unfold jestDependencies. by intros ->.
  - intros Hkind. by apply jestDependencies_elem.
Qed.

End JestBlock.

(** ** The order of enumeration only shows in the order of the output *)

Section EnumerationOrder.
Import GoStrings.

Variable h : Host.
Variable rk : gset string → list string.
Variable rt : gmap string string → list (string * string).

Lemma tryResolve_withOrder target from :
  tryResolve (withOrder h rk rt) target from = tryResolve h target from.
Proof. reflexivity. Qed.

Lemma probeExtensions_withOrder jsConfig from target exts : ∀ tries st,
  probeExtensions (withOrder h rk rt) jsConfig from target exts tries st
    = probeExtensions h jsConfig from target exts tries st.
Proof.
  induction exts as [|ext exts IH]; intros tries st; [done |].
  cbn [probeExtensions]. rewrite tryResolve_withOrder, IH. reflexivity.
Qed.

Lemma walkParents_withOrder from fuel : ∀ name parents tries st,
  walkParents (withOrder h rk rt) fuel name parents tries st from
    = walkParents h fuel name parents tries st from.
Proof.
  induction fuel as [|fuel IH]; intros name parents tries st; [done |].
  cbn [walkParents]. rewrite probeExtensions_withOrder.
  cbn [jsConfigs isWebAsset tsExtensions jsExtensions withOrder].
  destruct (probeExtensions _ _ _ _ _ _ _); [done |].
  destruct (_ || _); [done | apply IH].
Qed.

Lemma resolveImport_withOrder fuel jsConfig r from packageJSON name st :
  resolveImport (withOrder h rk rt) fuel jsConfig r from packageJSON name st
    = resolveImport h fuel jsConfig r from packageJSON name st.
Proof.
  unfold resolveImport, resolveWalkParents.
  by rewrite tryResolve_withOrder, walkParents_withOrder.
Qed.

Lemma resolveImports_withOrder fuel jsConfig r from packageJSON names : ∀ st,
  resolveImports (withOrder h rk rt) fuel jsConfig r from packageJSON names st
    = resolveImports h fuel jsConfig r from packageJSON names st.
Proof.
  induction names as [|name names IH]; intros st; [done |].
  cbn [resolveImports]. rewrite resolveImport_withOrder.
  destruct (resolveImport _ _ _ _ _ _ _ _); [apply IH | done].
Qed.

Lemma resolveImports_perm fuel jsConfig r from packageJSON names1 names2 :
  names1 ≡ₚ names2 → ∀ st s1,
  resolveImports h fuel jsConfig r from packageJSON names1 st = Some s1 →
  ∃ s2, resolveImports h fuel jsConfig r from packageJSON names2 st = Some s2
        ∧ depSet s2 = depSet s1 ∧ dataSet s2 = dataSet s1
        ∧ logs s2 ≡ₚ logs s1.
Proof.
  induction 1 as [|x l1 l2 Hperm IH|x y l|l1 l2 l3 H12 IH12 H23 IH23];
    intros st s1 Hs1.
  - by exists s1.
  - cbn [resolveImports] in *.
    destruct (resolveImport _ _ _ _ _ _ x st) as [sx|]; [|done].
    by apply IH.
  - apply resolveImports_cons in Hs1 as (dy & d' & Hy & Hrest & ->).
    apply resolveImports_cons in Hrest as (dx & dl & Hx & Hl & ->).
    rewrite extend_empty_l.
    exists (extend st (extend dx (extend dy dl))). split.
    + cbn [resolveImports].
      rewrite resolveImport_frame, Hx. cbn [fmap option_fmap option_map].
      rewrite resolveImport_frame, Hy. cbn [fmap option_fmap option_map].
      rewrite resolveImports_frame, Hl. cbn.
      by rewrite !extend_assoc.
    + cbn [extend depSet dataSet logs]. split; [|split].
      * f_equal. rewrite <- !(assoc_L (∪)). f_equal. apply (comm_L (∪)).
      * f_equal. rewrite <- !(assoc_L (∪)). f_equal. apply (comm_L (∪)).
      * apply Permutation_app_head. rewrite !app_assoc.
        apply Permutation_app_tail, Permutation_app_comm.
  - destruct (IH12 st s1 Hs1) as (s2 & Hs2 & Hd2 & Ha2 & Hl2).
    destruct (IH23 st s2 Hs2) as (s3 & Hs3 & Hd3 & Ha3 & Hl3).
    exists s3. split; [done |]. split; [congruence |]. split; [congruence |].
    by rewrite Hl3.
Qed.

Lemma jestDependencies_order jsConfig r st1 st2 :
  range_complete h → range_complete (withOrder h rk rt) →
  depSet st2 = depSet st1 → dataSet st2 = dataSet st1 → logs st2 ≡ₚ logs st1 →
  let s1 := jestDependencies h jsConfig r st1 in
  let s2 := jestDependencies (withOrder h rk rt) jsConfig r st2 in
  depSet s2 = depSet s1 ∧ dataSet s2 = dataSet s1 ∧ logs s2 ≡ₚ logs s1.
Proof.
  intros Hr Hr' Hdep Hdata Hlogs s1 s2.
  destruct (String.eqb (Kind r) (getKind h "jest_test")) eqn:Hkind.
  - destruct (jestDependencies_elem h jsConfig r st1 Hr Hkind)
      as (Hd1 & Ha1 & Hl1).
    destruct (jestDependencies_elem (withOrder h rk rt) jsConfig r st2 Hr' Hkind)
      as (Hd2 & Ha2 & Hl2).
    cbv zeta in Hd1, Ha1, Hl1, Hd2, Ha2, Hl2.
    split; [|split].
    + apply set_eq. intros x. fold s1 s2. unfold s1, s2.
      by rewrite Hd1, Hd2, Hdep.
    + apply set_eq. intros x. unfold s1, s2. by rewrite Ha1, Ha2, Hdata.
    + unfold s1, s2. by rewrite Hl1, Hl2.
  - unfold s1, s2, jestDependencies.
    cbn [getKind withOrder]. by rewrite Hkind.
Qed.

Lemma rendered_perm (s : gset string) :
  range_complete h → range_complete (withOrder h rk rt) →
  rangeKeys h s ≡ₚ rk s.
Proof.
  intros [Hk _] [Hk' _]. rewrite (Hk s). symmetry. apply (Hk' s).
Qed.

(** Two hosts that differ only in the order in which they enumerate a
    map.  When [Resolve] returns on the one, it returns on the other;
    both rules have the same attributes, "deps" and "data" holding the
    same labels up to their order, and the same messages were printed up
    to their order. *)
Theorem resolve_order_independent fuel r imports from r1 out1 :
  range_complete h → range_complete (withOrder h rk rt) →
  Resolve h fuel r imports from = Some (r1, out1) →
  ∃ r2 out2,
    Resolve (withOrder h rk rt) fuel r imports from = Some (r2, out2)
    ∧ Kind r2 = Kind r1
    ∧ (∀ key, match attrs r1 !! key, attrs r2 !! key with
              | Some l1, Some l2 => l1 ≡ₚ l2
              | None, None => True
              | _, _ => False
              end)
    ∧ out2 ≡ₚ out1.
Proof.
  intros Hr Hr'. unfold Resolve. rewrite tryResolve_withOrder.
  assert (Hsame : ∀ key, match attrs r !! key, attrs r !! key with
                         | Some l1, Some l2 => l1 ≡ₚ l2
                         | None, None => True
                         | _, _ => False
                         end).
  { intros key. by destruct (attrs r !! key). }
  destruct (err _) as [e|].
  { intros [= <- <-]. by eexists _, _. }
  destruct (selfImport _).
  { intros [= <- <-]. by eexists _, _. }
  cbn [jsConfigs rangeKeys withOrder]. rewrite resolveImports_withOrder.
  destruct (resolveImports h _ _ _ _ _ (rangeKeys h imports) _) as [st1|] eqn:Hst1;
    [|done].
  intros [= <- <-].
  assert (Hnames : rangeKeys h imports ≡ₚ rk imports) by by apply rendered_perm.
  destruct (resolveImports_perm _ _ _ _ _ _ _ Hnames _ _ Hst1)
    as (st2 & -> & Hdep & Hdata & Hlogs).
  destruct (jestDependencies_order (jsConfigs h (Pkg from)) r st1 st2
              Hr Hr' Hdep Hdata Hlogs) as (Hd & Ha & Hl).
  cbv zeta in Hd, Ha, Hl.
  eexists _, _. split; [reflexivity |]. split.
  { unfold renderAttrs. by rewrite !setOrDelAttr_Kind. }
  split; [|exact Hl]. intros key.
  destruct (decide (key = "deps")) as [->|Hk1].
  { rewrite !renderAttrs_deps by done. rewrite Hd.
    destruct (bool_decide (depSet _ = ∅)); cbn; [done |].
    by apply rendered_perm. }
  destruct (decide (key = "data")) as [->|Hk2].
  { rewrite !renderAttrs_data by done. rewrite Ha.
    destruct (bool_decide (dataSet _ = ∅)); cbn; [done |].
    by apply rendered_perm. }
  rewrite !renderAttrs_other by done. apply Hsame.
Qed.

End EnumerationOrder.

(** ** The manifest and the empty set of imports *)

Section ManifestAndEmpty.
Import GoStrings.

Variable h : Host.
Hypothesis Hrange : range_complete h.

Lemma jestDependencies_depSet jsConfig r st :
  depSet st ⊆ depSet (jestDependencies h jsConfig r st).
Proof.
  unfold jestDependencies. destruct (String.eqb _ _); [|done].
  cbn [addData depSet]. intros x Hx.
  apply (proj1 (fold_jestDependency_elem _ st)). by left.
Qed.

(** An import of "package" or of "package.json" becomes a dependency on
    the manifest: on the owner of "package.json" that the first query
    found, rendered as an absolute label, or on "//:package" when the
    query found no rule.  On every pass that returns, wherever the unit
    lies, the label is in the written "deps"; the pass returns whenever
    the climb meets a stop directory within the bound. *)
Theorem manifest_import fuel r imports from name :
  manifestFound h from →
  name ∈ imports → isManifestName name = true →
  let found := rlabel (tryResolve h "package.json" from) in
  let packageJSON :=
    if bool_decide (found = label.NoLabel) then "//:package"
    else label.String (label.Abs found (Repo from) (Pkg from)) in
  (∀ r' out,
     Resolve h fuel r imports from = Some (r', out) →
     ∃ l, attrs r' !! "deps" = Some l ∧ packageJSON ∈ l)
  ∧ (∀ d, stopsAt h from d = true → d < fuel →
          is_Some (Resolve h fuel r imports from)).
Proof.
  intros Hman Hin Hname found packageJSON.
  rewrite (Resolve_computeSets h _ _ _ _ Hman). split.
  - intros r' out.
    destruct (computeSets h fuel r imports from) as [st|] eqn:Hst; [|done].
    intros [= <- <-].
    assert (Hpj : packageJSON ∈ depSet st).
    { unfold computeSets in Hst.
      destruct (resolveImports _ _ _ _ _ _ _ _) as [st0|] eqn:Hst0; [|done].
      injection Hst as <-. apply jestDependencies_depSet.
      apply (proj1 (resolveImports_elem _ _ _ _ _ _ _ _ _ Hst0)). right.
      eexists name, _. split; [by apply rangeKeys_elem_of |]. split.
      - unfold resolveImport. unfold isManifestName in Hname. by rewrite Hname.
      - cbn [addDep depSet]. apply elem_of_union_l, elem_of_singleton.
        unfold packageJSON, found. by destruct (bool_decide _). }
    eexists. rewrite renderAttrs_deps by done.
    rewrite bool_decide_eq_false_2.
    + split; [reflexivity |]. by apply rangeKeys_elem_of.
    + intros Hempty. rewrite Hempty in Hpj. by apply elem_of_empty in Hpj.
  - intros d Hstop Hfuel.
    destruct (computeSets_ends h fuel r imports from d Hstop Hfuel) as [st ->].
    by eexists.
Qed.


End ManifestAndEmpty.

Section ManifestSelf.

Variable h : Host.

(** The unit that owns "package.json" is not resolved at all: when the
    first query finds the importing unit itself, [Resolve] returns with
    the rule as it was and prints nothing, whatever the unit imports. *)
Theorem manifest_self_import fuel r imports from m :
  noEffectiveOverride h "package.json" from →
  FindRulesByImportWithConfig h (specOf h "package.json") (languageName h) = [m] →
  IsSelfImport m from = true →
  Resolve h fuel r imports from = Some (r, []).
Proof.
  intros Hov Hix Hself. unfold Resolve.
  rewrite (tryResolve_index h _ _ Hov). unfold tryResolveIndex.
  unfold specOf in Hix. by rewrite Hix, Hself.
Qed.

End ManifestSelf.

Section LoopExamples.
Import GoStrings.

Lemma manifest_import_witness :
  ∃ r' out l,
    Resolve emptyHost 0 (mkRule "js_library" ∅) {["package.json"; "fs"]}
      packageFrom = Some (r', out)
    ∧ attrs r' !! "deps" = Some l ∧ "//:package" ∈ l.
Proof.
  destruct (manifest_import emptyHost emptyHost_range 0 (mkRule "js_library" ∅)
              {["package.json"; "fs"]} packageFrom "package.json")
    as [Hwritten _].
  - split; reflexivity.
  - rewrite elem_of_union, !elem_of_singleton. by left.
  - reflexivity.
  - assert (Hres : Resolve emptyHost 0 (mkRule "js_library" ∅)
                     {["package.json"; "fs"]} packageFrom
                   = Some (mkRule "js_library" {[ "deps" := ["//:package"] ]}, []))
      by (by vm_compute).
    destruct (Hwritten _ _ Hres) as (l & Hdeps & Hin).
    eexists _, _, l. split; [exact Hres |]. split; [exact Hdeps | exact Hin].
Defined.


Lemma manifest_self_import_witness :
  Resolve ownerHost 0 staleRule {["lodash"]} ownerFrom = Some (staleRule, []).
Proof.
  apply (manifest_self_import ownerHost 0 staleRule {["lodash"]} ownerFrom
           (mkFindResult (mkLabel "" "" "pkg_json" false) [])).
  - exact I.
  - reflexivity.
  - reflexivity.
Defined.

Lemma jestDependencies_spec_witness :
  "@npm//jest" ∈ dataSet (jestDependencies demoHost demoConfig
                            (mkRule "jest_test" ∅) emptyState)
  ∧ jestDependencies demoHost demoConfig (mkRule "ts_project" ∅) emptyState
    = emptyState.
Proof.
  destruct (jestDependencies_spec demoHost demoConfig (mkRule "jest_test" ∅)
              emptyState demoHost_range) as [_ Hjest].
  destruct (jestDependencies_spec demoHost demoConfig (mkRule "ts_project" ∅)
              emptyState demoHost_range) as [Hother _].
  split; [|exact (Hother eq_refl)].
  destruct (Hjest eq_refl) as (_ & Hdata & _).
  apply Hdata. right. right. exists "jest", "@npm//".
  split; [by vm_compute |]. split; reflexivity.
Defined.

Lemma identifiers_contribute_witness :
  ":other" ∈ ({[":other"; "@npm//lodash"]} : gset string) ↔
    ":other" ∈ (∅ : gset string)
    ∨ ∃ name d, name ∈ ["lodash"; "./other"]
        ∧ resolveImport demoHost 5 demoConfig staleRule demoFrom "//:package"
            name emptyState = Some d
        ∧ ":other" ∈ depSet d.
Proof.
  destruct (identifiers_contribute demoHost 5 demoConfig staleRule demoFrom
              "//:package" ["lodash"; "./other"] emptyState
              (mkState {[":other"; "@npm//lodash"]} {["@npm//lodash"]} []))
    as (_ & Hdep & _).
  - by vm_compute.
  - exact (Hdep ":other").
Defined.

Lemma resolve_order_independent_witness :
  ∃ r2 out2,
    Resolve (withOrder demoHost reversedKeys map_to_list) 5 staleRule
      {["lodash"; "./other"]} demoFrom = Some (r2, out2)
    ∧ Kind r2 = "ts_project"
    ∧ (∀ key, match attrs (mkRule "ts_project"
                             {[ "deps" := [":other"; "@npm//lodash"];
                                "data" := ["@npm//lodash"];
                                "srcs" := ["lib.ts"] ]}) !! key,
                    attrs r2 !! key with
              | Some l1, Some l2 => l1 ≡ₚ l2
              | None, None => True
              | _, _ => False
              end)
    ∧ out2 ≡ₚ [].
Proof.
  apply (resolve_order_independent demoHost reversedKeys map_to_list 5 staleRule
           {["lodash"; "./other"]} demoFrom
           (mkRule "ts_project"
              {[ "deps" := [":other"; "@npm//lodash"];
                 "data" := ["@npm//lodash"];
                 "srcs" := ["lib.ts"] ]}) []).
  - exact demoHost_range.
  - split; [|done]. intros s. apply reverse_Permutation.
  - by vm_compute.
Defined.

End LoopExamples.

(** ** The index entries of a rule *)

Section ImportsFacts.
Import GoStrings.

Variable h : Host.
Variable ih : IndexHost.

Lemma Imports_parts r f :
  let srcs := AttrStrings r "srcs" in
  Imports h ih r f =
    map (λ src, mkImportSpec (languageName h) (GoPath.Join [fPkg f; src])) srcs
    ++ (if existsb (isBarrelFile ih) srcs
        then [mkImportSpec (languageName h) (fPkg f)] else [])
    ++ (if CollectAll ih (jsConfigs h (fPkg f))
           && (String.eqb (Kind r) (getKind h "ts_project")
               || String.eqb (Kind r) (getKind h "js_library"))
        then map (folderSpec h f (filepath_Dir (fPath f)))
               (rangeKeys h (list_to_set (map filepath_Dir srcs)))
        else []).
Proof.
  cbv zeta. unfold Imports.
  destruct (existsb _ _), (_ && _); by rewrite ?app_nil_r, <- ?app_assoc.
Qed.

Lemma append_length a b :
  String.length (a +:+ b) = String.length a + String.length b.
Proof.
  induction a as [|ch a IH]; [done |]. rewrite append_cons. cbn. by rewrite IH.
Qed.

Lemma folderSpec_not_package f base dir :
  folderSpec h f base dir ≠ mkImportSpec (languageName h) (fPkg f).
Proof.
  unfold folderSpec. intros [= Heq].
  apply (f_equal String.length) in Heq. rewrite !append_length in Heq.
  cbn in Heq. lia.
Qed.

(** Every source file of the rule is indexed, under the path of the
    file from the repository root: the entries for the sources come
    first, in the order of "srcs", and every entry carries the name of
    this language. *)
Theorem Imports_sources r f :
  (∀ i src, AttrStrings r "srcs" !! i = Some src →
            Imports h ih r f !! i
              = Some (mkImportSpec (languageName h) (GoPath.Join [fPkg f; src])))
  ∧ (∀ spec, spec ∈ Imports h ih r f → Lang spec = languageName h).
Proof.
  rewrite Imports_parts. cbv zeta. split.
  - intros i src Hsrc. apply lookup_app_l_Some.
    by rewrite list_lookup_fmap, Hsrc.
  - intros spec. rewrite !elem_of_app. intros [Hin|[Hin|Hin]].
    + apply list_elem_of_fmap in Hin as (src & -> & _). done.
    + destruct (existsb _ _); [|by apply elem_of_nil in Hin].
      by apply list_elem_of_singleton in Hin as ->.
    + destruct (_ && _); [|by apply elem_of_nil in Hin].
      apply list_elem_of_fmap in Hin as (dir & -> & _). done.
Qed.

(** The entry that follows the source files is the package directory
    itself exactly when one of the sources is a barrel file. *)
Theorem Imports_barrel r f :
  existsb (isBarrelFile ih) (AttrStrings r "srcs") = true
  ↔ Imports h ih r f !! length (AttrStrings r "srcs")
    = Some (mkImportSpec (languageName h) (fPkg f)).
Proof.
  rewrite Imports_parts. cbv zeta.
  rewrite lookup_app_r by (by rewrite length_map).
  rewrite length_map, Nat.sub_diag.
  destruct (existsb _ _); [done |]. cbn [app]. split; [done |].
  destruct (_ && _); [|done].
  destruct (rangeKeys h _) as [|dir dirs]; [done |].
  intros Heq. exfalso.
  apply (folderSpec_not_package f (filepath_Dir (fPath f)) dir).
  cbn in Heq. congruence.
Qed.

(** The number of entries: one per source file, one more with a barrel
    file, and, with CollectAll for a ts_project or js_library, one per
    distinct directory of a source file, each such directory being
    indexed.  A rule without sources has no entry. *)
Theorem Imports_count r f :
  range_complete h →
  let srcs := AttrStrings r "srcs" in
  let folderImports :=
    CollectAll ih (jsConfigs h (fPkg f))
    && (String.eqb (Kind r) (getKind h "ts_project")
        || String.eqb (Kind r) (getKind h "js_library")) in
  length (Imports h ih r f)
    = length srcs
      + (if existsb (isBarrelFile ih) srcs then 1 else 0)
      + (if folderImports
         then size (list_to_set (map filepath_Dir srcs) : gset string) else 0)
  ∧ (folderImports = true →
     ∀ src, src ∈ srcs →
            folderSpec h f (filepath_Dir (fPath f)) (filepath_Dir src)
              ∈ Imports h ih r f)
  ∧ (srcs = [] → Imports h ih r f = []).
Proof.
  intros [Hkeys _] srcs folderImports. rewrite Imports_parts.
  fold srcs folderImports. split; [|split].
  - rewrite !length_app, length_map.
    assert (length (if existsb (isBarrelFile ih) srcs
                    then [mkImportSpec (languageName h) (fPkg f)] else [])
            = if existsb (isBarrelFile ih) srcs then 1 else 0) as ->
      by by destruct (existsb _ _).
    destruct folderImports; [|cbn; lia].
    rewrite length_map, (Hkeys _). unfold size, set_size. cbn. lia.
  - intros -> src Hsrc. rewrite !elem_of_app. right. right.
    apply list_elem_of_fmap. exists (filepath_Dir src). split; [done |].
    rewrite (Hkeys _), elem_of_elements, elem_of_list_to_set.
    apply list_elem_of_fmap. by exists src.
  - intros Hempty. rewrite Hempty. cbn.
    destruct folderImports; [|done].
    assert (rangeKeys h ∅ = []) as ->; [|done].
    pose proof (Hkeys ∅) as Hperm. rewrite elements_empty in Hperm.
    by apply Permutation_nil_r in Hperm.
Qed.

End ImportsFacts.

Section ImportsExamples.

Lemma Imports_count_witness :
  length (Imports demoHost demoIndexHost demoSources demoFile) = 6.
Proof.
  destruct (Imports_count demoHost demoIndexHost demoSources demoFile
              demoHost_range) as [Hlen _].
  rewrite Hlen. by vm_compute.
Defined.

Example Imports_run :
  Imports demoHost plainIndexHost demoSources demoFile
    = [ mkImportSpec "js" "pkg/sub/index.ts"; mkImportSpec "js" "pkg/sub/lib/a.ts";
        mkImportSpec "js" "pkg/sub/lib/b.ts"; mkImportSpec "js" "pkg/sub" ].
Proof. reflexivity. Qed.

End ImportsExamples.

Lemma direct_query_witness :
  resolveImport overrideHost 0 demoConfig staleRule demoFrom "//:package"
    "shared/api" emptyState
    = Some (mkState {["//shared:api"]} ∅ []).
Proof.
  destruct (direct_query overrideHost 0 demoConfig staleRule demoFrom
              "//:package" "shared/api" emptyState eq_refl eq_refl eq_refl)
    as [Hlabel _].
  - refine (proj1 (bool_decide_eq_false _) _). by vm_compute.
  - rewrite Hlabel; [by vm_compute | discriminate].
Defined.
